(** * The drive-by-wire node of [ros/src/twist_controller/dbw_node.py]

    A shallow embedding of the class [DBWNode]: its constructor, the seven
    subscriber callbacks, the method [publish] and the method [loop], with
    the properties of the control loop proved about them.

    Conventions of the embedding.
    - A Python [float] is a binary64 value: Rocq's primitive [float].
      Python's unbounded [int] is [Z].
    - [self] is the record [DBWNode]; a method that assigns to attributes
      of [self] returns the updated record.
    - The body of [loop] runs in the monad [M]: the state is [self], an
      uncaught Python exception is [Raise], and every call into a
      collaborator that can be seen from outside (the Controller call, a
      publish, the rate sleep) is appended to a log of [effect]s.
    - The collaborators whose code is not in this file (the class
      [Controller] of [twist_controller.py], rospy's [Publisher.publish])
      are the fields of the class [Collaborators]; every theorem holds for
      all of them.
    - rospy runs subscriber callbacks on their own threads while [loop]
      runs on the main thread.  A [tick] therefore lists the deliveries
      handled before the iteration starts and the deliveries handled while
      the loop thread is between the Controller call of line 119 and the
      test of line 125.  A callback, and the reads of lines 108-116, are
      each taken as one step there; a [fine_tick] takes every store of a
      callback and every load of lines 108-114 as a step of its own. *)

From Stdlib Require Import ZArith PrimFloat.
From stdpp Require Import base option list gmap strings relations.

Set Warnings "-inexact-float".
Local Open Scope Z_scope.

(** ** Messages *)

(** [geometry_msgs]: only the payload is modelled, the [header] of a
    stamped message is never read by the node. *)
Record Vector3 := { v3_x : float; v3_y : float; v3_z : float }.
Record Twist := { linear : Vector3; angular : Vector3 }.
Record TwistStamped := { twist : Twist }.
Record Point := { pt_x : float; pt_y : float; pt_z : float }.
Record Quaternion := { q_x : float; q_y : float; q_z : float; q_w : float }.
Record Pose := { position : Point; orientation : Quaternion }.
Record PoseStamped := { pose : Pose }.

(** [styx_msgs/Lane] and its waypoints. *)
Record Waypoint := { wp_pose : PoseStamped; wp_twist : TwistStamped }.
Record Lane := { waypoints : list Waypoint }.

(** [std_msgs/Bool], [std_msgs/Float32], [dbw_mkz_msgs/SteeringReport]. *)
Record Bool := { Bool_data : bool }.
Record Float32 := { Float32_data : float }.
Record SteeringReport := { steering_wheel_angle : float }.

(** The command-type constants of [ThrottleCmd] and [BrakeCmd]. *)
Inductive cmd_type := CMD_NONE | CMD_PEDAL | CMD_PERCENT | CMD_TORQUE.

(** The three command messages, with the fields [publish] assigns; the
    other fields of the generated classes keep their constructor values. *)
Record ThrottleCmd := {
  throttle_enable : bool;
  throttle_pedal_cmd_type : cmd_type;
  throttle_pedal_cmd : float }.

Record SteeringCmd := {
  steering_enable : bool;
  steering_wheel_angle_cmd : float }.

Record BrakeCmd := {
  brake_enable : bool;
  brake_pedal_cmd_type : cmd_type;
  brake_pedal_cmd : float }.

Inductive out_msg :=
| ThrottleMsg (m : ThrottleCmd)
| SteeringMsg (m : SteeringCmd)
| BrakeMsg (m : BrakeCmd).

(** The publishers created at lines 55-57, named by their topic. *)
Inductive publisher := steer_pub | throttle_pub | brake_pub.

(** One message handed to a subscriber callback (lines 88-94). *)
Inductive delivery :=
| on_twist_cmd (msg : TwistStamped)
| on_current_velocity (msg : TwistStamped)
| on_dbw_enabled (msg : Bool)
| on_final_waypoints (msg : Lane)
| on_current_pose (msg : PoseStamped)
| on_steering_report (msg : SteeringReport)
| on_cte (msg : Float32).

(** The subscribed topics. *)
Inductive topic :=
| twist_cmd_topic | current_velocity_topic | dbw_enabled_topic
| final_waypoints_topic | current_pose_topic | steering_report_topic
| cte_topic.

Definition topic_of (d : delivery) : topic :=
  match d with
  | on_twist_cmd _ => twist_cmd_topic
  | on_current_velocity _ => current_velocity_topic
  | on_dbw_enabled _ => dbw_enabled_topic
  | on_final_waypoints _ => final_waypoints_topic
  | on_current_pose _ => current_pose_topic
  | on_steering_report _ => steering_report_topic
  | on_cte _ => cte_topic
  end.

Definition topic_eqb (a b : topic) : bool :=
  match a, b with
  | twist_cmd_topic, twist_cmd_topic
  | current_velocity_topic, current_velocity_topic
  | dbw_enabled_topic, dbw_enabled_topic
  | final_waypoints_topic, final_waypoints_topic
  | current_pose_topic, current_pose_topic
  | steering_report_topic, steering_report_topic
  | cte_topic, cte_topic => true
  | _, _ => false
  end.

(** ** Parameters and keyword arguments *)

(** A value of the parameter server. *)
Inductive param_value :=
| PInt (z : Z)
| PFloat (f : float)
| PBool (b : bool)
| PStr (s : string).

(** [rospy.get_param(name, default)]. *)
Definition get_param (server : gmap string param_value) (name : string)
    (dflt : param_value) : param_value :=
  match server !! name with
  | Some v => v
  | None => dflt
  end.

(** The local variables of lines 42-52. *)
Record parameters := {
  vehicle_mass : param_value;
  fuel_capacity : param_value;
  brake_deadband : param_value;
  decel_limit : param_value;
  accel_limit : param_value;
  wheel_radius : param_value;
  wheel_base : param_value;
  steer_ratio : param_value;
  max_lat_accel : param_value;
  max_steer_angle : param_value;
  min_speed : param_value }.

(** Lines 42-52. *)
Definition read_parameters (server : gmap string param_value) : parameters :=
  {| vehicle_mass := get_param server "~vehicle_mass" (PFloat 1736.35);
     fuel_capacity := get_param server "~fuel_capacity" (PFloat 13.5);
     brake_deadband := get_param server "~brake_deadband" (PFloat 0.1);
     decel_limit := get_param server "~decel_limit" (PInt (-5));
     accel_limit := get_param server "~accel_limit" (PFloat 1);
     wheel_radius := get_param server "~wheel_radius" (PFloat 0.2413);
     wheel_base := get_param server "~wheel_base" (PFloat 2.8498);
     steer_ratio := get_param server "~steer_ratio" (PFloat 14.8);
     max_lat_accel := get_param server "~max_lat_accel" (PFloat 3);
     max_steer_angle := get_param server "~max_steer_angle" (PFloat 8);
     min_speed := get_param server "~min_speed" (PFloat 1) |}.

(** The dictionary [control_args] of lines 108-116. *)
Record control_args := {
  kw_target_vel : float;
  kw_curr_vel : float;
  kw_target_ang_vel : float;
  kw_curr_ang_vel : float;
  kw_dbw_enabled : bool;
  kw_curr_angle : float;
  kw_cte : float;
  kw_elapsed : float }.

(** ** Results, effects, collaborators *)

Inductive exn :=
| ControlError            (* raised inside [controller.control] *)
| PublishError (p : publisher). (* raised inside [Publisher.publish] *)

Inductive result (A : Type) :=
| Return (a : A)
| Raise (e : exn).
Arguments Return {A} a.
Arguments Raise {A} e.

Inductive effect :=
| control_call (a : control_args)          (* line 119 *)
| published (p : publisher) (m : out_msg)  (* lines 138, 143, 149 *)
| slept (hz : Z).                          (* line 127 *)

(** What the node is linked against. [Controller] is the constructor
    called at line 72, [Controller_control] the method called at line 119
    (it may change the controller and may raise), [publish_raises] tells
    whether rospy's [publish] raises for a message on a publisher. *)
Class Collaborators := {
  Controller_obj : Type;
  Controller : gmap string param_value -> Controller_obj;
  Controller_control :
    Controller_obj -> control_args ->
    Controller_obj * result (float * float * float);
  publish_raises : publisher -> out_msg -> bool }.

(** One iteration of [loop] with the callbacks that interleave with it. *)
Record tick := {
  before : list delivery;  (* handled before line 103 of this iteration *)
  clock : float;           (* [rospy.rostime.get_time()] at line 103 *)
  during : list delivery   (* handled between line 119 and line 125 *) }.

(** [rospy.Rate(50)], line 99. *)
Definition rate_hz : Z := 50.

(** rospy's [Rate] keeps [Duration(0, int(1e9/hz))] as its period. *)
Definition Rate_sleep_dur_ns (hz : Z) : Z := 1000000000 / hz.

(** ** The node *)

Section Node.
Context {E : Collaborators}.

(** The attributes of a [DBWNode] instance (lines 72-85).
    [attr_final_waypoints_cb] is the entry [final_waypoints_cb] of the
    instance dictionary: absent ([None]) after construction, when the name
    resolves to the method of the class. *)
Record DBWNode := {
  controller : Controller_obj;
  dbw_enabled : bool;
  curr_vel : float;
  curr_ang_vel : float;
  target_vel : float;
  target_ang_vel : float;
  current_pose : option Pose;
  final_waypoints : option Lane;
  last_timestamp : float;
  curr_angle : float;
  cte : float;
  count : Z;
  attr_final_waypoints_cb : option (list Waypoint) }.

(** Attribute assignment, one function per assigned attribute. *)
Definition set_controller (v : Controller_obj) (self : DBWNode) : DBWNode :=
  {| controller := v; dbw_enabled := dbw_enabled self;
     curr_vel := curr_vel self; curr_ang_vel := curr_ang_vel self;
     target_vel := target_vel self; target_ang_vel := target_ang_vel self;
     current_pose := current_pose self;
     final_waypoints := final_waypoints self;
     last_timestamp := last_timestamp self; curr_angle := curr_angle self;
     cte := cte self; count := count self;
     attr_final_waypoints_cb := attr_final_waypoints_cb self |}.

Definition set_dbw_enabled (v : bool) (self : DBWNode) : DBWNode :=
  {| controller := controller self; dbw_enabled := v;
     curr_vel := curr_vel self; curr_ang_vel := curr_ang_vel self;
     target_vel := target_vel self; target_ang_vel := target_ang_vel self;
     current_pose := current_pose self;
     final_waypoints := final_waypoints self;
     last_timestamp := last_timestamp self; curr_angle := curr_angle self;
     cte := cte self; count := count self;
     attr_final_waypoints_cb := attr_final_waypoints_cb self |}.

Definition set_curr_vel (v : float) (self : DBWNode) : DBWNode :=
  {| controller := controller self; dbw_enabled := dbw_enabled self;
     curr_vel := v; curr_ang_vel := curr_ang_vel self;
     target_vel := target_vel self; target_ang_vel := target_ang_vel self;
     current_pose := current_pose self;
     final_waypoints := final_waypoints self;
     last_timestamp := last_timestamp self; curr_angle := curr_angle self;
     cte := cte self; count := count self;
     attr_final_waypoints_cb := attr_final_waypoints_cb self |}.

Definition set_curr_ang_vel (v : float) (self : DBWNode) : DBWNode :=
  {| controller := controller self; dbw_enabled := dbw_enabled self;
     curr_vel := curr_vel self; curr_ang_vel := v;
     target_vel := target_vel self; target_ang_vel := target_ang_vel self;
     current_pose := current_pose self;
     final_waypoints := final_waypoints self;
     last_timestamp := last_timestamp self; curr_angle := curr_angle self;
     cte := cte self; count := count self;
     attr_final_waypoints_cb := attr_final_waypoints_cb self |}.

Definition set_target_vel (v : float) (self : DBWNode) : DBWNode :=
  {| controller := controller self; dbw_enabled := dbw_enabled self;
     curr_vel := curr_vel self; curr_ang_vel := curr_ang_vel self;
     target_vel := v; target_ang_vel := target_ang_vel self;
     current_pose := current_pose self;
     final_waypoints := final_waypoints self;
     last_timestamp := last_timestamp self; curr_angle := curr_angle self;
     cte := cte self; count := count self;
     attr_final_waypoints_cb := attr_final_waypoints_cb self |}.

Definition set_target_ang_vel (v : float) (self : DBWNode) : DBWNode :=
  {| controller := controller self; dbw_enabled := dbw_enabled self;
     curr_vel := curr_vel self; curr_ang_vel := curr_ang_vel self;
     target_vel := target_vel self; target_ang_vel := v;
     current_pose := current_pose self;
     final_waypoints := final_waypoints self;
     last_timestamp := last_timestamp self; curr_angle := curr_angle self;
     cte := cte self; count := count self;
     attr_final_waypoints_cb := attr_final_waypoints_cb self |}.

Definition set_current_pose (v : option Pose) (self : DBWNode) : DBWNode :=
  {| controller := controller self; dbw_enabled := dbw_enabled self;
     curr_vel := curr_vel self; curr_ang_vel := curr_ang_vel self;
     target_vel := target_vel self; target_ang_vel := target_ang_vel self;
     current_pose := v;
     final_waypoints := final_waypoints self;
     last_timestamp := last_timestamp self; curr_angle := curr_angle self;
     cte := cte self; count := count self;
     attr_final_waypoints_cb := attr_final_waypoints_cb self |}.

Definition set_last_timestamp (v : float) (self : DBWNode) : DBWNode :=
  {| controller := controller self; dbw_enabled := dbw_enabled self;
     curr_vel := curr_vel self; curr_ang_vel := curr_ang_vel self;
     target_vel := target_vel self; target_ang_vel := target_ang_vel self;
     current_pose := current_pose self;
     final_waypoints := final_waypoints self;
     last_timestamp := v; curr_angle := curr_angle self;
     cte := cte self; count := count self;
     attr_final_waypoints_cb := attr_final_waypoints_cb self |}.

Definition set_curr_angle (v : float) (self : DBWNode) : DBWNode :=
  {| controller := controller self; dbw_enabled := dbw_enabled self;
     curr_vel := curr_vel self; curr_ang_vel := curr_ang_vel self;
     target_vel := target_vel self; target_ang_vel := target_ang_vel self;
     current_pose := current_pose self;
     final_waypoints := final_waypoints self;
     last_timestamp := last_timestamp self; curr_angle := v;
     cte := cte self; count := count self;
     attr_final_waypoints_cb := attr_final_waypoints_cb self |}.

Definition set_cte (v : float) (self : DBWNode) : DBWNode :=
  {| controller := controller self; dbw_enabled := dbw_enabled self;
     curr_vel := curr_vel self; curr_ang_vel := curr_ang_vel self;
     target_vel := target_vel self; target_ang_vel := target_ang_vel self;
     current_pose := current_pose self;
     final_waypoints := final_waypoints self;
     last_timestamp := last_timestamp self; curr_angle := curr_angle self;
     cte := v; count := count self;
     attr_final_waypoints_cb := attr_final_waypoints_cb self |}.

Definition set_count (v : Z) (self : DBWNode) : DBWNode :=
  {| controller := controller self; dbw_enabled := dbw_enabled self;
     curr_vel := curr_vel self; curr_ang_vel := curr_ang_vel self;
     target_vel := target_vel self; target_ang_vel := target_ang_vel self;
     current_pose := current_pose self;
     final_waypoints := final_waypoints self;
     last_timestamp := last_timestamp self; curr_angle := curr_angle self;
     cte := cte self; count := v;
     attr_final_waypoints_cb := attr_final_waypoints_cb self |}.

Definition set_attr_final_waypoints_cb (v : option (list Waypoint))
    (self : DBWNode) : DBWNode :=
  {| controller := controller self; dbw_enabled := dbw_enabled self;
     curr_vel := curr_vel self; curr_ang_vel := curr_ang_vel self;
     target_vel := target_vel self; target_ang_vel := target_ang_vel self;
     current_pose := current_pose self;
     final_waypoints := final_waypoints self;
     last_timestamp := last_timestamp self; curr_angle := curr_angle self;
     cte := cte self; count := count self;
     attr_final_waypoints_cb := v |}.

(** *** The constructor, lines 42-85 *)

(** Lines 60-70 and 72: the dictionary [controller_args] built from the
    local variables. *)
Definition controller_args_of (l : parameters) : gmap string param_value :=
  list_to_map
    [ ("wheel_base", wheel_base l);
      ("steer_ratio", steer_ratio l);
      ("min_speed", min_speed l);
      ("max_lat_accel", max_lat_accel l);
      ("max_steer_angle", max_steer_angle l);
      ("decel_limit", decel_limit l);
      ("accel_limit", accel_limit l);
      ("vehicle_mass", vehicle_mass l);
      ("wheel_radius", wheel_radius l);
      ("brake_deadband", brake_deadband l) ].

Definition controller_args (server : gmap string param_value)
    : gmap string param_value :=
  controller_args_of (read_parameters server).

(** Lines 39-94: the instance as it is when [self.loop()] is entered;
    [t0] is the clock reading of line 82. *)
Definition new_DBWNode (server : gmap string param_value) (t0 : float)
    : DBWNode :=
  {| controller := Controller (controller_args server);
     dbw_enabled := true;
     curr_vel := 0%float;
     curr_ang_vel := 0%float;
     target_vel := 0%float;
     target_ang_vel := 0%float;
     current_pose := None;
     final_waypoints := None;
     last_timestamp := t0;
     curr_angle := 0%float;
     cte := 0%float;
     count := 0;
     attr_final_waypoints_cb := None |}.

(** *** The callbacks, lines 151-172 *)

Definition dbw_enabled_cb (msg : Bool) (self : DBWNode) : DBWNode :=
  set_dbw_enabled (Bool_data msg) self.

Definition twist_cmd_cb (msg : TwistStamped) (self : DBWNode) : DBWNode :=
  let self := set_target_vel (v3_x (linear (twist msg))) self in
  set_target_ang_vel (v3_z (angular (twist msg))) self.

Definition current_velocity_cb (msg : TwistStamped) (self : DBWNode)
    : DBWNode :=
  let self := set_curr_vel (v3_x (linear (twist msg))) self in
  set_curr_ang_vel (v3_z (angular (twist msg))) self.

Definition current_pose_cb (msg : PoseStamped) (self : DBWNode) : DBWNode :=
  set_current_pose (Some (pose msg)) self.

Definition cte_cb (msg : Float32) (self : DBWNode) : DBWNode :=
  set_cte (Float32_data msg) self.

(** Line 169 assigns the attribute [final_waypoints_cb] of the instance,
    not [final_waypoints]. *)
Definition final_waypoints_cb (msg : Lane) (self : DBWNode) : DBWNode :=
  set_attr_final_waypoints_cb (Some (waypoints msg)) self.

Definition current_angle_cb (msg : SteeringReport) (self : DBWNode)
    : DBWNode :=
  set_curr_angle (steering_wheel_angle msg) self.

(** The subscriptions of lines 88-94.  Each subscriber holds the bound
    method it was given at construction, so a delivery on
    [/final_waypoints] runs the method of the class also after line 169
    has put a list under the same name in the instance. *)
Definition deliver (d : delivery) (self : DBWNode) : DBWNode :=
  match d with
  | on_twist_cmd msg => twist_cmd_cb msg self
  | on_current_velocity msg => current_velocity_cb msg self
  | on_dbw_enabled msg => dbw_enabled_cb msg self
  | on_final_waypoints msg => final_waypoints_cb msg self
  | on_current_pose msg => current_pose_cb msg self
  | on_steering_report msg => current_angle_cb msg self
  | on_cte msg => cte_cb msg self
  end.

Definition deliver_all (ds : list delivery) (self : DBWNode) : DBWNode :=
  foldl (fun s d => deliver d s) self ds.

(** *** The monad of the loop thread *)

(** A computation on [self]: its result, the instance it leaves and the
    effects it performed, in order.  After [Raise] the instance and the
    effects are those at the point of the exception. *)
Definition M (A : Type) : Type := DBWNode -> result A * DBWNode * list effect.

#[export] Instance M_ret : MRet M :=
  fun A (a : A) self => (Return a, self, []).

#[export] Instance M_bind : MBind M :=
  fun A B (k : A -> M B) (m : M A) self =>
    match m self with
    | (Return a, self1, es1) =>
        match k a self1 with
        | (r, self2, es2) => (r, self2, es1 ++ es2)
        end
    | (Raise e, self1, es1) => (Raise e, self1, es1)
    end.

Definition getattr {A : Type} (f : DBWNode -> A) : M A :=
  fun self => (Return (f self), self, []).

Definition setattr (f : DBWNode -> DBWNode) : M unit :=
  fun self => (Return tt, f self, []).

(** The call of [self.controller.control] with the keyword arguments [a]:
    the controller may change itself. *)
Definition control (a : control_args) : M (float * float * float) :=
  fun self =>
    match Controller_control (controller self) a with
    | (c, r) => (r, set_controller c self, [control_call a])
    end.

(** [p.publish(m)]. *)
Definition Publisher_publish (p : publisher) (m : out_msg) : M unit :=
  fun self =>
    if publish_raises p m then (Raise (PublishError p), self, [])
    else (Return tt, self, [published p m]).

(** [rate.sleep()]. *)
Definition Rate_sleep (hz : Z) : M unit :=
  fun self => (Return tt, self, [slept hz]).

(** The callbacks that the subscriber threads run at this point. *)
Definition handle (ds : list delivery) : M unit :=
  setattr (deliver_all ds).

Definition run_result {A : Type} (m : M A) (self : DBWNode) : result A :=
  (m self).1.1.
Definition run_state {A : Type} (m : M A) (self : DBWNode) : DBWNode :=
  (m self).1.2.
Definition run_effects {A : Type} (m : M A) (self : DBWNode) : list effect :=
  (m self).2.

(** *** [publish], lines 129-149 *)

Definition publish (throttle brake steer : float) : M unit :=
  n ← getattr count;
  setattr (set_count (n + 1));;
  let tcmd := {| throttle_enable := true;
                 throttle_pedal_cmd_type := CMD_PERCENT;
                 throttle_pedal_cmd := throttle |} in
  Publisher_publish throttle_pub (ThrottleMsg tcmd);;
  let scmd := {| steering_enable := true;
                 steering_wheel_angle_cmd := steer |} in
  Publisher_publish steer_pub (SteeringMsg scmd);;
  let bcmd := {| brake_enable := true;
                 brake_pedal_cmd_type := CMD_TORQUE;
                 brake_pedal_cmd := brake |} in
  Publisher_publish brake_pub (BrakeMsg bcmd).

(** *** [loop], lines 98-127 *)

(** Lines 108-116: the attributes of [self] read into [control_args]. *)
Definition read_control_args (elapsed : float) (self : DBWNode)
    : control_args :=
  {| kw_target_vel := target_vel self;
     kw_curr_vel := curr_vel self;
     kw_target_ang_vel := target_ang_vel self;
     kw_curr_ang_vel := curr_ang_vel self;
     kw_dbw_enabled := dbw_enabled self;
     kw_curr_angle := curr_angle self;
     kw_cte := cte self;
     kw_elapsed := elapsed |}.

(** Lines 103-119, [now] being the clock reading of line 103. *)
Definition loop_head (now : float) : M (float * float * float) :=
  last ← getattr last_timestamp;
  let elapsed := PrimFloat.sub now last in
  setattr (set_last_timestamp now);;
  args ← getattr (read_control_args elapsed);
  control args.

(** Lines 125-127, with the values unpacked at line 119. *)
Definition loop_tail (cmd : float * float * float) : M unit :=
  let '(throttle, brake, angle) := cmd in
  enabled ← getattr dbw_enabled;
  (if enabled : bool then publish throttle brake angle else mret tt);;
  Rate_sleep rate_hz.

(** One pass through the body of the [while] of line 101. *)
Definition iteration (t : tick) : M unit :=
  handle (before t);;
  cmd ← loop_head (clock t);
  handle (during t);;
  loop_tail cmd.

(** The [while] loop over the iterations that happen before shutdown. *)
Fixpoint loop (schedule : list tick) : M unit :=
  match schedule with
  | [] => mret tt
  | t :: rest => iteration t;; loop rest
  end.

(** [DBWNode()]: construction followed by [self.loop()], line 96. *)
Definition DBWNode_init (server : gmap string param_value) (t0 : float)
    (schedule : list tick) : result unit * DBWNode * list effect :=
  loop schedule (new_DBWNode server t0).

(** *** The observation points of one iteration *)

(** The instance when line 103 is reached. *)
Definition at_head (t : tick) (self : DBWNode) : DBWNode :=
  deliver_all (before t) self.

(** The keyword arguments of the Controller call of this iteration. *)
Definition tick_args (t : tick) (self : DBWNode) : control_args :=
  read_control_args
    (PrimFloat.sub (clock t) (last_timestamp (at_head t self)))
    (at_head t self).

(** What the Controller call of this iteration answers. *)
Definition tick_outcome (t : tick) (self : DBWNode)
    : Controller_obj * result (float * float * float) :=
  Controller_control (controller (at_head t self)) (tick_args t self).

(** The instance when the test of line 125 is reached. *)
Definition at_gate (t : tick) (self : DBWNode) : DBWNode :=
  deliver_all (during t)
    (set_controller (tick_outcome t self).1
       (set_last_timestamp (clock t) (at_head t self))).

(** Two instances that agree on every attribute but [current_pose]. *)
Definition same_but_pose (self1 self2 : DBWNode) : Prop :=
  set_current_pose None self1 = set_current_pose None self2.

(** *** Reachable instances *)

(** One atomic action of some thread on the instance. *)
Inductive step : DBWNode -> DBWNode -> Prop :=
| step_deliver d self : step self (deliver d self)
| step_head now self : step self (run_state (loop_head now) self)
| step_tail cmd self : step self (run_state (loop_tail cmd) self).

Definition reachable (server : gmap string param_value) (t0 : float)
    (self : DBWNode) : Prop :=
  rtc step (new_DBWNode server t0) self.

End Node.

Arguments DBWNode E : clear implicits.
Arguments M E A : clear implicits.

(** ** Observations on an effect log *)

Definition publishes (es : list effect) : list (publisher * out_msg) :=
  flat_map (fun e => match e with published p m => [(p, m)] | _ => [] end) es.

Definition control_calls (es : list effect) : list control_args :=
  flat_map (fun e => match e with control_call a => [a] | _ => [] end) es.

Definition sleeps (es : list effect) : list Z :=
  flat_map (fun e => match e with slept hz => [hz] | _ => [] end) es.

(** The three commands of one engaged tick, in publication order. *)
Definition commands (cmd : float * float * float)
    : list (publisher * out_msg) :=
  let '(throttle, brake, steer) := cmd in
  [ (throttle_pub, ThrottleMsg {| throttle_enable := true;
                                  throttle_pedal_cmd_type := CMD_PERCENT;
                                  throttle_pedal_cmd := throttle |});
    (steer_pub, SteeringMsg {| steering_enable := true;
                               steering_wheel_angle_cmd := steer |});
    (brake_pub, BrakeMsg {| brake_enable := true;
                            brake_pedal_cmd_type := CMD_TORQUE;
                            brake_pedal_cmd := brake |}) ].

(** Deliveries on one topic, and a schedule without them. *)
Definition on_topic (tp : topic) (d : delivery) : bool :=
  topic_eqb (topic_of d) tp.

Definition without (tp : topic) (ds : list delivery) : list delivery :=
  List.filter (fun d => negb (on_topic tp d)) ds.

Definition without_pose (t : tick) : tick :=
  {| before := without current_pose_topic (before t);
     clock := clock t;
     during := without current_pose_topic (during t) |}.

(** No delivery of [ds] is on the topic [tp]. *)
Definition none_on (tp : topic) (ds : list delivery) : Prop :=
  Forall (fun d => on_topic tp d = false) ds.

(** An iteration during which no callback runs. *)
Definition quiet (t : tick) : Prop := before t = [] /\ during t = [].

(** What a delivery on one of the five topics that feed [control_args]
    leaves there; the pose and the waypoints have no entry in it. *)
Definition reflects (d : delivery) (a : control_args) : Prop :=
  match d with
  | on_twist_cmd msg =>
      kw_target_vel a = v3_x (linear (twist msg)) /\
      kw_target_ang_vel a = v3_z (angular (twist msg))
  | on_current_velocity msg =>
      kw_curr_vel a = v3_x (linear (twist msg)) /\
      kw_curr_ang_vel a = v3_z (angular (twist msg))
  | on_dbw_enabled msg => kw_dbw_enabled a = Bool_data msg
  | on_steering_report msg => kw_curr_angle a = steering_wheel_angle msg
  | on_cte msg => kw_cte a = Float32_data msg
  | on_final_waypoints _ | on_current_pose _ => True
  end.

(** The keyword arguments of a node that never received a message. *)
Definition startup_args (a : control_args) : Prop :=
  kw_target_vel a = 0%float /\ kw_curr_vel a = 0%float /\
  kw_target_ang_vel a = 0%float /\ kw_curr_ang_vel a = 0%float /\
  kw_curr_angle a = 0%float /\ kw_cte a = 0%float /\
  kw_dbw_enabled a = true.

(** The eleven parameters in the order of lines 42-52: the name without
    its [~], the default, and the local variable that receives it. *)
Definition parameter_table
    : list (string * param_value * (parameters -> param_value)) :=
  [ ("vehicle_mass", PFloat 1736.35, vehicle_mass);
    ("fuel_capacity", PFloat 13.5, fuel_capacity);
    ("brake_deadband", PFloat 0.1, brake_deadband);
    ("decel_limit", PInt (-5), decel_limit);
    ("accel_limit", PFloat 1, accel_limit);
    ("wheel_radius", PFloat 0.2413, wheel_radius);
    ("wheel_base", PFloat 2.8498, wheel_base);
    ("steer_ratio", PFloat 14.8, steer_ratio);
    ("max_lat_accel", PFloat 3, max_lat_accel);
    ("max_steer_angle", PFloat 8, max_steer_angle);
    ("min_speed", PFloat 1, min_speed) ].

(** The claim that a parameter of the table is a keyword argument of the
    Controller constructor, with the value read for it. *)
Definition forwarded (server : gmap string param_value)
    (row : string * param_value * (parameters -> param_value)) : Prop :=
  controller_args server !! row.1.1
  = Some (get_param server ("~" +:+ row.1.1) row.1.2).

(** ** Sample collaborators and schedules *)

(** A controller that counts its calls and answers from its arguments;
    every publish succeeds. *)
Definition echo_controller : Collaborators :=
  {| Controller_obj := Z;
     Controller := fun _ => 0;
     Controller_control := fun c a =>
       (c + 1, Return (kw_target_vel a, kw_cte a, kw_target_ang_vel a));
     publish_raises := fun _ _ => false |}.

(** A controller whose [control] raises on its second call. *)
Definition failing_controller : Collaborators :=
  {| Controller_obj := Z;
     Controller := fun _ => 0;
     Controller_control := fun c a =>
       (c + 1, if 1 <=? c then Raise ControlError
               else Return (1%float, 0%float, 0%float));
     publish_raises := fun _ _ => false |}.

(** Publishing on the steering topic raises. *)
Definition closed_steering : Collaborators :=
  {| Controller_obj := Z;
     Controller := fun _ => 0;
     Controller_control := fun c a =>
       (c + 1, Return (1%float, 0%float, 0%float));
     publish_raises := fun p _ =>
       match p with steer_pub => true | _ => false end |}.

Definition idle_tick (now : float) : tick :=
  {| before := []; clock := now; during := [] |}.

Definition sample_twist (vx wz : float) : TwistStamped :=
  {| twist := {| linear := {| v3_x := vx; v3_y := 0; v3_z := 0 |};
                 angular := {| v3_x := 0; v3_y := 0; v3_z := wz |} |} |}.

Definition sample_pose (px : float) : PoseStamped :=
  {| pose := {| position := {| pt_x := px; pt_y := 0; pt_z := 0 |};
                orientation :=
                  {| q_x := 0; q_y := 0; q_z := 0; q_w := 1 |} |} |}.

Definition sample_lane : Lane :=
  {| waypoints := [ {| wp_pose := sample_pose 1;
                       wp_twist := sample_twist 2 0 |} ] |}.

(** The override is released before the iteration starts and taken back
    while the controller runs. *)
Definition regained_mid_tick : tick :=
  {| before := [on_dbw_enabled {| Bool_data := false |}];
     clock := 1%float;
     during := [on_dbw_enabled {| Bool_data := true |}] |}.

(** The override is given back, with a new target, before the iteration. *)
Definition resumed_tick : tick :=
  {| before := [ on_dbw_enabled {| Bool_data := false |};
                 on_twist_cmd (sample_twist 5 0.5);
                 on_dbw_enabled {| Bool_data := true |};
                 on_cte {| Float32_data := 0.25 |} ];
     clock := 1%float;
     during := [on_current_pose (sample_pose 3)] |}.

(** The override is released and nothing else happens. *)
Definition overridden_tick : tick :=
  {| before := [on_dbw_enabled {| Bool_data := false |}];
     clock := 1%float;
     during := [] |}.

(** A parameter server that sets the fuel capacity only. *)
Definition fuel_only : gmap string param_value :=
  {["~fuel_capacity" := PFloat 20]}.

(** Fresh instances, one per sample collaborator. *)
Definition echo_node : DBWNode echo_controller :=
  new_DBWNode ∅ 0%float.

Definition failing_node : DBWNode failing_controller :=
  new_DBWNode ∅ 0%float.

Definition closed_steering_node : DBWNode closed_steering :=
  new_DBWNode ∅ 0%float.

(** ** Further observations on runs *)

(** The last delivery of [ds] on the topic [tp]. *)
Definition latest (tp : topic) (ds : list delivery) : option delivery :=
  last (List.filter (on_topic tp) ds).

(** Every delivery of a schedule, in the order in which the callbacks run
    when no iteration raises. *)
Definition deliveries (schedule : list tick) : list delivery :=
  flat_map (fun t => before t ++ during t) schedule.

(** The differences of successive clock readings, the first one taken
    against [previous]. *)
Fixpoint elapsed_values (previous : float) (clocks : list float)
    : list float :=
  match clocks with
  | [] => []
  | now :: rest => PrimFloat.sub now previous :: elapsed_values now rest
  end.

(** The order of the three [publish] calls of lines 138, 143 and 149. *)
Definition publication_order : list publisher :=
  [throttle_pub; steer_pub; brake_pub].

(** No delivery of [ds] sets the override flag to true. *)
Definition keeps_released (ds : list delivery) : Prop :=
  Forall (fun d => match d with
                   | on_dbw_enabled msg => Bool_data msg = false
                   | _ => True
                   end) ds.

(** The attributes that the callbacks assign. *)
Definition callback_view {E : Collaborators} (self : DBWNode E)
    : control_args * option Pose * option (list Waypoint) :=
  (read_control_args 0%float self, current_pose self,
   attr_final_waypoints_cb self).

(** The controller after the calls [calls], made in this order. *)
Definition controller_after {E : Collaborators} (c : Controller_obj)
    (calls : list control_args) : Controller_obj :=
  foldl (fun c a => (Controller_control c a).1) c calls.

(** Publishing on the brake topic raises. *)
Definition closed_brake : Collaborators :=
  {| Controller_obj := Z;
     Controller := fun _ => 0;
     Controller_control := fun c a =>
       (c + 1, Return (kw_target_vel a, kw_cte a, kw_target_ang_vel a));
     publish_raises := fun p _ =>
       match p with brake_pub => true | _ => false end |}.

Definition closed_brake_node : DBWNode closed_brake :=
  new_DBWNode ∅ 0%float.

(** ** The loads of lines 108-114 and the stores of the callbacks,
    one by one

    The node takes no lock.  The dictionary of lines 108-116 is built by
    seven separate attribute loads, the callbacks of lines 154-160 make
    two separate stores, and a subscriber thread can run between any two
    of them.  A [fine_tick] lists the stores performed before each load
    of the loop thread; the [tick]s above are the schedules in which
    whole callbacks run before line 103 or while the Controller runs. *)

Inductive attribute :=
| target_vel_attr | target_ang_vel_attr | curr_vel_attr | curr_ang_vel_attr
| dbw_enabled_attr | current_pose_attr | cte_attr | final_waypoints_cb_attr
| curr_angle_attr.

Definition attribute_eqb (a b : attribute) : bool :=
  match a, b with
  | target_vel_attr, target_vel_attr
  | target_ang_vel_attr, target_ang_vel_attr
  | curr_vel_attr, curr_vel_attr
  | curr_ang_vel_attr, curr_ang_vel_attr
  | dbw_enabled_attr, dbw_enabled_attr
  | current_pose_attr, current_pose_attr
  | cte_attr, cte_attr
  | final_waypoints_cb_attr, final_waypoints_cb_attr
  | curr_angle_attr, curr_angle_attr => true
  | _, _ => false
  end.

(** One attribute assignment of a callback. *)
Inductive store :=
| store_dbw_enabled (v : bool)                  (* line 152 *)
| store_target_vel (v : float)                  (* line 155 *)
| store_target_ang_vel (v : float)              (* line 156 *)
| store_curr_vel (v : float)                    (* line 159 *)
| store_curr_ang_vel (v : float)                (* line 160 *)
| store_current_pose (v : Pose)                 (* line 163 *)
| store_cte (v : float)                         (* line 166 *)
| store_final_waypoints_cb (v : list Waypoint)  (* line 169 *)
| store_curr_angle (v : float).                 (* line 172 *)

Definition attribute_of (st : store) : attribute :=
  match st with
  | store_dbw_enabled _ => dbw_enabled_attr
  | store_target_vel _ => target_vel_attr
  | store_target_ang_vel _ => target_ang_vel_attr
  | store_curr_vel _ => curr_vel_attr
  | store_curr_ang_vel _ => curr_ang_vel_attr
  | store_current_pose _ => current_pose_attr
  | store_cte _ => cte_attr
  | store_final_waypoints_cb _ => final_waypoints_cb_attr
  | store_curr_angle _ => curr_angle_attr
  end.

(** The stores of the callback that handles [d], in program order. *)
Definition stores_of (d : delivery) : list store :=
  match d with
  | on_twist_cmd msg =>
      [ store_target_vel (v3_x (linear (twist msg)));
        store_target_ang_vel (v3_z (angular (twist msg))) ]
  | on_current_velocity msg =>
      [ store_curr_vel (v3_x (linear (twist msg)));
        store_curr_ang_vel (v3_z (angular (twist msg))) ]
  | on_dbw_enabled msg => [store_dbw_enabled (Bool_data msg)]
  | on_final_waypoints msg => [store_final_waypoints_cb (waypoints msg)]
  | on_current_pose msg => [store_current_pose (pose msg)]
  | on_steering_report msg => [store_curr_angle (steering_wheel_angle msg)]
  | on_cte msg => [store_cte (Float32_data msg)]
  end.

(** The stores of [sts] to the attribute [a], and the last of them. *)
Definition stores_to (a : attribute) (sts : list store) : list store :=
  List.filter (fun st => attribute_eqb (attribute_of st) a) sts.

Definition last_store (a : attribute) (sts : list store) : option store :=
  last (stores_to a sts).

(** No store of [sts] is to an attribute that the callback of [d]
    assigns. *)
Definition untouched (d : delivery) (sts : list store) : Prop :=
  forall st, st ∈ stores_of d -> stores_to (attribute_of st) sts = [].

(** One iteration of [loop] with the stores that interleave with it:
    [before_108] holds the stores performed before the load of line 108,
    since the test of line 125 of the previous iteration; [before_109]
    those between the loads of lines 108 and 109, and so on; [before_125]
    those between the load of line 114 and the test of line 125, while
    the Controller runs. *)
Record fine_tick := {
  fine_clock : float;
  before_108 : list store;
  before_109 : list store;
  before_110 : list store;
  before_111 : list store;
  before_112 : list store;
  before_113 : list store;
  before_114 : list store;
  before_125 : list store }.

(** The stores performed before each load of the iteration. *)
Definition upto_108 (t : fine_tick) : list store := before_108 t.
Definition upto_109 (t : fine_tick) : list store :=
  upto_108 t ++ before_109 t.
Definition upto_110 (t : fine_tick) : list store :=
  upto_109 t ++ before_110 t.
Definition upto_111 (t : fine_tick) : list store :=
  upto_110 t ++ before_111 t.
Definition upto_112 (t : fine_tick) : list store :=
  upto_111 t ++ before_112 t.
Definition upto_113 (t : fine_tick) : list store :=
  upto_112 t ++ before_113 t.
Definition upto_114 (t : fine_tick) : list store :=
  upto_113 t ++ before_114 t.
Definition upto_125 (t : fine_tick) : list store :=
  upto_114 t ++ before_125 t.

(** Every store of a fine schedule, in order. *)
Definition all_stores (schedule : list fine_tick) : list store :=
  flat_map upto_125 schedule.

(** A [tick] as a [fine_tick]: whole callbacks, none between the loads. *)
Definition refine (t : tick) : fine_tick :=
  {| fine_clock := clock t;
     before_108 := flat_map stores_of (before t);
     before_109 := []; before_110 := []; before_111 := [];
     before_112 := []; before_113 := []; before_114 := [];
     before_125 := flat_map stores_of (during t) |}.

(** The same iteration with other stores while the Controller runs. *)
Definition with_before_125 (sts : list store) (t : fine_tick) : fine_tick :=
  {| fine_clock := fine_clock t;
     before_108 := before_108 t; before_109 := before_109 t;
     before_110 := before_110 t; before_111 := before_111 t;
     before_112 := before_112 t; before_113 := before_113 t;
     before_114 := before_114 t;
     before_125 := sts |}.

Section Loads.
Context {E : Collaborators}.

(** The assignment a store makes. *)
Definition perform (st : store) (self : DBWNode E) : DBWNode E :=
  match st with
  | store_dbw_enabled v => set_dbw_enabled v self
  | store_target_vel v => set_target_vel v self
  | store_target_ang_vel v => set_target_ang_vel v self
  | store_curr_vel v => set_curr_vel v self
  | store_curr_ang_vel v => set_curr_ang_vel v self
  | store_current_pose v => set_current_pose (Some v) self
  | store_cte v => set_cte v self
  | store_final_waypoints_cb v => set_attr_final_waypoints_cb (Some v) self
  | store_curr_angle v => set_curr_angle v self
  end.

Definition perform_all (sts : list store) (self : DBWNode E) : DBWNode E :=
  foldl (fun s st => perform st s) self sts.

(** The instance with the last store of [sts] to [a] alone, or [self]
    when [sts] has none. *)
Definition after_last_store (a : attribute) (sts : list store)
    (self : DBWNode E) : DBWNode E :=
  match last_store a sts with
  | Some st => perform st self
  | None => self
  end.

(** Lines 103-119 with the stores between the loads. *)
Definition fine_loop_head (t : fine_tick) : M E (float * float * float) :=
  setattr (perform_all (before_108 t));;
  last ← getattr last_timestamp;
  let elapsed := PrimFloat.sub (fine_clock t) last in
  setattr (set_last_timestamp (fine_clock t));;
  target_vel_108 ← getattr target_vel;
  setattr (perform_all (before_109 t));;
  curr_vel_109 ← getattr curr_vel;
  setattr (perform_all (before_110 t));;
  target_ang_vel_110 ← getattr target_ang_vel;
  setattr (perform_all (before_111 t));;
  curr_ang_vel_111 ← getattr curr_ang_vel;
  setattr (perform_all (before_112 t));;
  dbw_enabled_112 ← getattr dbw_enabled;
  setattr (perform_all (before_113 t));;
  curr_angle_113 ← getattr curr_angle;
  setattr (perform_all (before_114 t));;
  cte_114 ← getattr cte;
  control {| kw_target_vel := target_vel_108;
             kw_curr_vel := curr_vel_109;
             kw_target_ang_vel := target_ang_vel_110;
             kw_curr_ang_vel := curr_ang_vel_111;
             kw_dbw_enabled := dbw_enabled_112;
             kw_curr_angle := curr_angle_113;
             kw_cte := cte_114;
             kw_elapsed := elapsed |}.

(** One pass through the body of the [while], store by store. *)
Definition fine_iteration (t : fine_tick) : M E unit :=
  cmd ← fine_loop_head t;
  setattr (perform_all (before_125 t));;
  loop_tail cmd.

Fixpoint fine_loop (schedule : list fine_tick) : M E unit :=
  match schedule with
  | [] => mret tt
  | t :: rest => fine_iteration t;; fine_loop rest
  end.

(** The keyword arguments of the Controller call of a fine iteration:
    each attribute as it is after the stores that precede its load. *)
Definition fine_args (t : fine_tick) (self : DBWNode E) : control_args :=
  {| kw_target_vel := target_vel (perform_all (upto_108 t) self);
     kw_curr_vel := curr_vel (perform_all (upto_109 t) self);
     kw_target_ang_vel := target_ang_vel (perform_all (upto_110 t) self);
     kw_curr_ang_vel := curr_ang_vel (perform_all (upto_111 t) self);
     kw_dbw_enabled := dbw_enabled (perform_all (upto_112 t) self);
     kw_curr_angle := curr_angle (perform_all (upto_113 t) self);
     kw_cte := cte (perform_all (upto_114 t) self);
     kw_elapsed := PrimFloat.sub (fine_clock t) (last_timestamp self) |}.

Definition fine_outcome (t : fine_tick) (self : DBWNode E)
    : Controller_obj * result (float * float * float) :=
  Controller_control (controller self) (fine_args t self).

(** The instance when the test of line 125 is reached. *)
Definition fine_at_gate (t : fine_tick) (self : DBWNode E) : DBWNode E :=
  set_controller (fine_outcome t self).1
    (set_last_timestamp (fine_clock t) (perform_all (upto_125 t) self)).

(** What the Controller returns at the calls [calls], made in this order
    from the controller [c], up to the first call that raises. *)
Fixpoint returned_commands (c : Controller_obj) (calls : list control_args)
    : list (float * float * float) :=
  match calls with
  | [] => []
  | a :: rest =>
      match Controller_control c a with
      | (c1, Return cmd) => cmd :: returned_commands c1 rest
      | (_, Raise _) => []
      end
  end.

End Loads.

(** A controller whose answer shows the elapsed time it was given. *)
Definition elapsed_controller : Collaborators :=
  {| Controller_obj := Z;
     Controller := fun _ => 0;
     Controller_control := fun c a =>
       (c + 1, Return (kw_elapsed a, 1%float, 0.25%float));
     publish_raises := fun _ _ => false |}.

(** A second lane, with two waypoints. *)
Definition second_lane : Lane :=
  {| waypoints := [ {| wp_pose := sample_pose 4;
                       wp_twist := sample_twist 1 0 |};
                    {| wp_pose := sample_pose 5;
                       wp_twist := sample_twist 1 0 |} ] |}.

(** A twist message is handled before the iteration, and a second one
    between the loads of lines 108 and 110. *)
Definition torn_twist_tick : fine_tick :=
  {| fine_clock := 1%float;
     before_108 := stores_of (on_twist_cmd (sample_twist 5 0.5));
     before_109 := [];
     before_110 := stores_of (on_twist_cmd (sample_twist 7 0.75));
     before_111 := []; before_112 := []; before_113 := [];
     before_114 := []; before_125 := [] |}.

(** A release, a target and a resume before the iteration, the first
    store of a velocity callback before line 109 and its second store
    while the Controller runs. *)
Definition fine_resumed_tick : fine_tick :=
  {| fine_clock := 1%float;
     before_108 := [ store_dbw_enabled false;
                     store_target_vel 5; store_target_ang_vel 0.5;
                     store_dbw_enabled true ];
     before_109 := [store_curr_vel 3];
     before_110 := []; before_111 := []; before_112 := [];
     before_113 := []; before_114 := [];
     before_125 := [store_curr_ang_vel 0.2] |}.

(** More sample ticks: measurements before the iteration and a new
    target while the Controller runs; a release that is repeated. *)
Definition measured_tick : tick :=
  {| before := [ on_steering_report {| steering_wheel_angle := 0.1 |};
                 on_current_velocity (sample_twist 3 0.2) ];
     clock := 1.02%float;
     during := [on_twist_cmd (sample_twist 7 0)] |}.

Definition released_tick : tick :=
  {| before := [ on_twist_cmd (sample_twist 4 0);
                 on_dbw_enabled {| Bool_data := false |} ];
     clock := 1.04%float;
     during := [on_current_pose (sample_pose 2)] |}.

(** * Properties *)

Section Properties.
Context {E : Collaborators}.
Implicit Types (self : DBWNode E) (t : tick) (ds : list delivery).

(** ** The phases of an iteration in closed form *)

Lemma loop_head_eq now self :
  loop_head now self =
    let a := read_control_args
               (PrimFloat.sub now (last_timestamp self)) self in
    let cr := Controller_control (controller self) a in
    (cr.2, set_controller cr.1 (set_last_timestamp now self),
     [control_call a]).
Proof.
  unfold loop_head, control, getattr, setattr, mbind, M_bind. simpl.
  unfold read_control_args at 1. simpl.
  fold (read_control_args (PrimFloat.sub now (last_timestamp self)) self).
  destruct (Controller_control _ _) as [c r]. reflexivity.
Qed.

Lemma publish_accepted throttle brake steer self :
  (forall pm, pm ∈ commands (throttle, brake, steer) ->
              publish_raises pm.1 pm.2 = false) ->
  publish throttle brake steer self =
    (Return tt, set_count (count self + 1) self,
     map (fun pm => published pm.1 pm.2) (commands (throttle, brake, steer))).
Proof.
  intros Hok.
  unfold publish, Publisher_publish, getattr, setattr, mbind, M_bind.
  simpl.
  assert (Hin : forall p m, (p, m) ∈ commands (throttle, brake, steer) ->
                            publish_raises p m = false)
    by (intros p m H; apply (Hok (p, m) H)).
  simpl in Hin.
  rewrite !Hin by (repeat constructor).
  reflexivity.
Qed.

Lemma loop_tail_disabled cmd self :
  dbw_enabled self = false ->
  loop_tail cmd self = (Return tt, self, [slept rate_hz]).
Proof.
  intros Hoff. destruct cmd as [[throttle brake] angle].
  unfold loop_tail, Rate_sleep, getattr, mbind, M_bind, mret, M_ret.
  simpl. rewrite Hoff. reflexivity.
Qed.

Lemma loop_tail_enabled throttle brake angle self :
  dbw_enabled self = true ->
  loop_tail (throttle, brake, angle) self =
    match publish throttle brake angle self with
    | (Return _, self1, es) => (Return tt, self1, es ++ [slept rate_hz])
    | (Raise e, self1, es) => (Raise e, self1, es)
    end.
Proof.
  intros Hon.
  unfold loop_tail, Rate_sleep, getattr.
  unfold mbind at 1 2, M_bind at 1 2. simpl. rewrite Hon.
  destruct (publish throttle brake angle self) as [[[u|e] self1] es];
    reflexivity.
Qed.

Lemma iteration_eq t self :
  iteration t self =
    match (tick_outcome t self).2 with
    | Return cmd =>
        match loop_tail cmd (at_gate t self) with
        | (r, self1, es) => (r, self1, control_call (tick_args t self) :: es)
        end
    | Raise e =>
        (Raise e,
         set_controller (tick_outcome t self).1
           (set_last_timestamp (clock t) (at_head t self)),
         [control_call (tick_args t self)])
    end.
Proof.
  unfold iteration, handle, setattr.
  unfold mbind at 1 2, M_bind at 1 2. simpl.
  fold (at_head t self). rewrite loop_head_eq. simpl.
  fold (tick_args t self). fold (tick_outcome t self).
  destruct (tick_outcome t self) as [c [cmd|e]] eqn:Hout; simpl;
    [|reflexivity].
  unfold mbind, M_bind. simpl.
  unfold at_gate. rewrite Hout. simpl.
  destruct (loop_tail cmd _) as [[r self1] es]. reflexivity.
Qed.

Lemma loop_cons t rest self :
  loop (t :: rest) self =
    match iteration t self with
    | (Return _, self1, es1) =>
        match loop rest self1 with
        | (r, self2, es2) => (r, self2, es1 ++ es2)
        end
    | (Raise e, self1, es1) => (Raise e, self1, es1)
    end.
Proof. reflexivity. Qed.

(** ** What the callbacks leave alone *)

Lemma deliver_all_app ds1 ds2 self :
  deliver_all (ds1 ++ ds2) self = deliver_all ds2 (deliver_all ds1 self).
Proof. unfold deliver_all. apply foldl_app. Qed.

Lemma deliver_all_cons d ds self :
  deliver_all (d :: ds) self = deliver_all ds (deliver d self).
Proof. reflexivity. Qed.

(** Any property of the instance that every callback preserves is
    preserved by a run of callbacks. *)
Lemma deliver_all_preserves {A : Type} (f : DBWNode E -> A) :
  (forall d self, f (deliver d self) = f self) ->
  forall ds self, f (deliver_all ds self) = f self.
Proof.
  intros Hd ds. induction ds as [|d ds IH]; intros self; [reflexivity|].
  rewrite deliver_all_cons, IH. apply Hd.
Qed.

Lemma deliver_last_timestamp d self :
  last_timestamp (deliver d self) = last_timestamp self.
Proof. destruct d; reflexivity. Qed.

Lemma deliver_count d self : count (deliver d self) = count self.
Proof. destruct d; reflexivity. Qed.

Lemma deliver_final_waypoints d self :
  final_waypoints (deliver d self) = final_waypoints self.
Proof. destruct d; reflexivity. Qed.

Lemma deliver_all_dbw_enabled ds self :
  none_on dbw_enabled_topic ds ->
  dbw_enabled (deliver_all ds self) = dbw_enabled self.
Proof.
  intros Hnone. revert self.
  induction Hnone as [|d ds Hd _ IH]; intros self; [reflexivity|].
  rewrite deliver_all_cons, IH. destruct d; try reflexivity. discriminate.
Qed.

Lemma at_gate_count t self : count (at_gate t self) = count self.
Proof.
  unfold at_gate, at_head.
  rewrite (deliver_all_preserves count deliver_count). simpl.
  apply (deliver_all_preserves count deliver_count).
Qed.

Lemma at_gate_dbw_enabled t self :
  none_on dbw_enabled_topic (during t) ->
  dbw_enabled (at_gate t self) = kw_dbw_enabled (tick_args t self).
Proof.
  intros Hnone. unfold at_gate.
  rewrite deliver_all_dbw_enabled by assumption. reflexivity.
Qed.

(** ** The three ways an iteration can go *)

Lemma iteration_raised t self e :
  (tick_outcome t self).2 = Raise e ->
  iteration t self =
    (Raise e,
     set_controller (tick_outcome t self).1
       (set_last_timestamp (clock t) (at_head t self)),
     [control_call (tick_args t self)]).
Proof. intros Hout. rewrite iteration_eq, Hout. reflexivity. Qed.

Lemma iteration_disengaged t self cmd :
  (tick_outcome t self).2 = Return cmd ->
  dbw_enabled (at_gate t self) = false ->
  iteration t self =
    (Return tt, at_gate t self,
     [control_call (tick_args t self); slept rate_hz]).
Proof.
  intros Hout Hoff.
  rewrite iteration_eq, Hout, loop_tail_disabled by assumption.
  reflexivity.
Qed.

Lemma iteration_engaged t self cmd :
  (tick_outcome t self).2 = Return cmd ->
  dbw_enabled (at_gate t self) = true ->
  (forall pm, pm ∈ commands cmd -> publish_raises pm.1 pm.2 = false) ->
  iteration t self =
    (Return tt, set_count (count self + 1) (at_gate t self),
     control_call (tick_args t self)
       :: map (fun pm => published pm.1 pm.2) (commands cmd)
       ++ [slept rate_hz]).
Proof.
  intros Hout Hon Hok. destruct cmd as [[throttle brake] steer].
  rewrite iteration_eq, Hout, (loop_tail_enabled _ _ _ _ Hon).
  rewrite (publish_accepted _ _ _ _ Hok), at_gate_count. reflexivity.
Qed.

Lemma publishes_published (pms : list (publisher * out_msg)) :
  publishes (map (fun pm => published pm.1 pm.2) pms) = pms.
Proof.
  induction pms as [|[p m] pms IH]; [reflexivity|].
  simpl. f_equal. exact IH.
Qed.

(** The log of an iteration: one Controller call, then a prefix of the
    three commands, then the sleep if nothing raised. *)
Lemma iteration_log t self :
  exists pms,
    run_effects (iteration t) self =
      control_call (tick_args t self)
        :: map (fun pm => published pm.1 pm.2) pms
        ++ match run_result (iteration t) self with
           | Return _ => [slept rate_hz]
           | Raise _ => []
           end.
Proof.
  unfold run_effects, run_result. rewrite iteration_eq.
  destruct ((tick_outcome t self).2) as [cmd|e]; [|by exists []].
  destruct (dbw_enabled (at_gate t self)) eqn:Hflag.
  - destruct cmd as [[throttle brake] angle].
    rewrite loop_tail_enabled by assumption.
    unfold publish, Publisher_publish, getattr, setattr, mbind, M_bind.
    simpl.
    destruct (publish_raises throttle_pub _); simpl; [by exists []|].
    destruct (publish_raises steer_pub _); simpl.
    { by eexists [(_, _)]. }
    destruct (publish_raises brake_pub _); simpl.
    { by eexists [(_, _); (_, _)]. }
    by eexists [(_, _); (_, _); (_, _)].
  - rewrite loop_tail_disabled by assumption. by exists [].
Qed.

Lemma control_calls_published (pms : list (publisher * out_msg)) es :
  control_calls (map (fun pm => published pm.1 pm.2) pms ++ es)
  = control_calls es.
Proof. induction pms as [|pm pms IH]; [reflexivity|exact IH]. Qed.

Lemma sleeps_published (pms : list (publisher * out_msg)) es :
  sleeps (map (fun pm => published pm.1 pm.2) pms ++ es) = sleeps es.
Proof. induction pms as [|pm pms IH]; [reflexivity|exact IH]. Qed.

Lemma iteration_control_calls t self :
  control_calls (run_effects (iteration t) self) = [tick_args t self].
Proof.
  destruct (iteration_log t self) as [pms ->]. simpl.
  rewrite control_calls_published.
  destruct (run_result _ _); reflexivity.
Qed.

Lemma iteration_sleeps t self :
  sleeps (run_effects (iteration t) self) =
    match run_result (iteration t) self with
    | Return _ => [rate_hz]
    | Raise _ => []
    end.
Proof.
  destruct (iteration_log t self) as [pms ->]. simpl.
  rewrite sleeps_published.
  destruct (run_result _ _); reflexivity.
Qed.

(** The loop thread assigns [controller], [last_timestamp] and [count]
    and nothing else. *)
Lemma publish_state throttle brake steer self :
  exists n, run_state (publish throttle brake steer) self = set_count n self.
Proof.
  unfold run_state, publish, Publisher_publish, getattr, setattr, mbind,
    M_bind. simpl.
  repeat (destruct (publish_raises _ _); simpl); by eexists.
Qed.

Lemma loop_tail_state cmd self :
  exists n, run_state (loop_tail cmd) self = set_count n self.
Proof.
  destruct (dbw_enabled self) eqn:Hflag.
  - destruct cmd as [[throttle brake] angle].
    destruct (publish_state throttle brake angle self) as [n Hn].
    exists n. unfold run_state in *.
    rewrite loop_tail_enabled by assumption.
    destruct (publish throttle brake angle self) as [[[u|e] self1] es];
      exact Hn.
  - exists (count self). unfold run_state.
    rewrite loop_tail_disabled by assumption. by destruct self.
Qed.

Lemma iteration_state t self :
  exists n,
    run_state (iteration t) self =
      set_count n
        (deliver_all
           match (tick_outcome t self).2 with
           | Return _ => during t
           | Raise _ => []
           end
           (set_controller (tick_outcome t self).1
              (set_last_timestamp (clock t) (at_head t self)))).
Proof.
  unfold run_state. rewrite iteration_eq.
  destruct ((tick_outcome t self).2) as [cmd|e].
  - destruct (loop_tail_state cmd (at_gate t self)) as [n Hn].
    exists n. unfold run_state in Hn.
    destruct (loop_tail cmd (at_gate t self)) as [[r self1] es].
    exact Hn.
  - exists (count (at_head t self)). reflexivity.
Qed.

Lemma iteration_last_timestamp t self :
  last_timestamp (run_state (iteration t) self) = clock t.
Proof.
  destruct (iteration_state t self) as [n ->]. simpl.
  rewrite (deliver_all_preserves last_timestamp deliver_last_timestamp).
  reflexivity.
Qed.

Lemma tick_args_elapsed t self :
  kw_elapsed (tick_args t self)
  = PrimFloat.sub (clock t) (last_timestamp self).
Proof.
  unfold tick_args, at_head. simpl.
  rewrite (deliver_all_preserves last_timestamp deliver_last_timestamp).
  reflexivity.
Qed.

(** ** The gate of line 125 *)

(** C1, as the code has it: when [self.dbw_enabled] is false at the test
    of line 125, the iteration publishes nothing, whatever the Controller
    returned; the flag given to the Controller is the earlier read of line
    112, and it decides the same when no message on [/vehicle/dbw_enabled]
    is handled between the two reads. *)
Theorem closed_gate_publishes_nothing t self :
  (dbw_enabled (at_gate t self) = false ->
   publishes (run_effects (iteration t) self) = [])
  /\ (none_on dbw_enabled_topic (during t) ->
      kw_dbw_enabled (tick_args t self) = false ->
      publishes (run_effects (iteration t) self) = []).
Proof.
  assert (Hgate : dbw_enabled (at_gate t self) = false ->
                  publishes (run_effects (iteration t) self) = []).
  { intros Hoff. unfold run_effects.
    destruct ((tick_outcome t self).2) as [cmd|e] eqn:Hout.
    - by rewrite (iteration_disengaged _ _ _ Hout Hoff).
    - by rewrite (iteration_raised _ _ _ Hout). }
  split; [exact Hgate|].
  intros Hnone Hoff. apply Hgate.
  rewrite at_gate_dbw_enabled by assumption. exact Hoff.
Qed.

(** C2: when the Controller has returned [(throttle, brake, steer)], the
    flag is true at line 125 and the transport takes the three messages, the
    iteration publishes exactly one throttle command (enabled, percent
    type, [throttle]), one steering command (enabled, [steer]) and one
    brake command (enabled, torque type, [brake]). *)
Theorem engaged_tick_publishes_three_commands t self throttle brake steer :
  (tick_outcome t self).2 = Return (throttle, brake, steer) ->
  dbw_enabled (at_gate t self) = true ->
  (forall pm, pm ∈ commands (throttle, brake, steer) ->
              publish_raises pm.1 pm.2 = false) ->
  run_result (iteration t) self = Return tt
  /\ publishes (run_effects (iteration t) self) =
       [ (throttle_pub,
          ThrottleMsg {| throttle_enable := true;
                         throttle_pedal_cmd_type := CMD_PERCENT;
                         throttle_pedal_cmd := throttle |});
         (steer_pub,
          SteeringMsg {| steering_enable := true;
                         steering_wheel_angle_cmd := steer |});
         (brake_pub,
          BrakeMsg {| brake_enable := true;
                      brake_pedal_cmd_type := CMD_TORQUE;
                      brake_pedal_cmd := brake |}) ]
  /\ count (run_state (iteration t) self) = count self + 1.
Proof.
  intros Hret Hon Hok.
  unfold run_result, run_effects, run_state.
  rewrite (iteration_engaged _ _ _ Hret Hon Hok). simpl. auto.
Qed.

(** ** The elapsed time *)

(** C3, as the code has it: every iteration calls the Controller once,
    with [elapsed] the float difference of the clock reading of line 103
    and the stored [last_timestamp], and leaves that reading in
    [last_timestamp]; so the next iteration is given the difference of the
    two readings.  No sign is promised: the readings are those of
    [rospy.rostime.get_time()]. *)
Theorem elapsed_is_difference_of_clock_readings t self :
  control_calls (run_effects (iteration t) self) = [tick_args t self]
  /\ kw_elapsed (tick_args t self)
     = PrimFloat.sub (clock t) (last_timestamp self)
  /\ last_timestamp (run_state (iteration t) self) = clock t
  /\ (forall t', kw_elapsed (tick_args t' (run_state (iteration t) self))
                 = PrimFloat.sub (clock t') (clock t)).
Proof.
  split; [apply iteration_control_calls|].
  split; [apply tick_args_elapsed|].
  split; [apply iteration_last_timestamp|].
  intros t'. rewrite tick_args_elapsed, iteration_last_timestamp.
  reflexivity.
Qed.

(** ** Exceptions and the loop *)

Lemma loop_cons_raise t rest self e :
  run_result (iteration t) self = Raise e ->
  loop (t :: rest) self = iteration t self.
Proof.
  unfold run_result. rewrite loop_cons.
  destruct (iteration t self) as [[[u|e'] self1] es1]; [discriminate|].
  reflexivity.
Qed.

Lemma loop_cons_return t rest self :
  run_result (iteration t) self = Return tt ->
  loop (t :: rest) self =
    (run_result (loop rest) (run_state (iteration t) self),
     run_state (loop rest) (run_state (iteration t) self),
     run_effects (iteration t) self
       ++ run_effects (loop rest) (run_state (iteration t) self)).
Proof.
  unfold run_result, run_state, run_effects. rewrite loop_cons.
  destruct (iteration t self) as [[[u|e'] self1] es1]; [|discriminate].
  intros _. simpl.
  destruct (loop rest self1) as [[r self2] es2]. reflexivity.
Qed.

Lemma loop_cons_return_result t rest self :
  run_result (iteration t) self = Return tt ->
  run_result (loop (t :: rest)) self
  = run_result (loop rest) (run_state (iteration t) self).
Proof.
  intros Hret. unfold run_result at 1.
  by rewrite (loop_cons_return _ _ _ Hret).
Qed.

Lemma loop_cons_return_state t rest self :
  run_result (iteration t) self = Return tt ->
  run_state (loop (t :: rest)) self
  = run_state (loop rest) (run_state (iteration t) self).
Proof.
  intros Hret. unfold run_state at 1.
  by rewrite (loop_cons_return _ _ _ Hret).
Qed.

Lemma loop_cons_return_effects t rest self :
  run_result (iteration t) self = Return tt ->
  run_effects (loop (t :: rest)) self
  = run_effects (iteration t) self
    ++ run_effects (loop rest) (run_state (iteration t) self).
Proof.
  intros Hret. unfold run_effects at 1.
  by rewrite (loop_cons_return _ _ _ Hret).
Qed.

Lemma loop_cons_raise_result t rest self e :
  run_result (iteration t) self = Raise e ->
  run_result (loop (t :: rest)) self = Raise e.
Proof.
  intros Hexn. unfold run_result at 1.
  rewrite (loop_cons_raise _ _ _ _ Hexn). exact Hexn.
Qed.

Lemma loop_cons_raise_state t rest self e :
  run_result (iteration t) self = Raise e ->
  run_state (loop (t :: rest)) self = run_state (iteration t) self.
Proof.
  intros Hexn. unfold run_state at 1.
  by rewrite (loop_cons_raise _ _ _ _ Hexn).
Qed.

Lemma loop_cons_raise_effects t rest self e :
  run_result (iteration t) self = Raise e ->
  run_effects (loop (t :: rest)) self = run_effects (iteration t) self.
Proof.
  intros Hexn. unfold run_effects at 1.
  by rewrite (loop_cons_raise _ _ _ _ Hexn).
Qed.

Lemma result_unit_cases (r : result unit) :
  r = Return tt \/ exists e, r = Raise e.
Proof. destruct r as [[]|e]; [by left|right; by exists e]. Qed.

Lemma iteration_publishes_prefix t self cmd :
  (tick_outcome t self).2 = Return cmd ->
  publishes (run_effects (iteration t) self) `prefix_of` commands cmd
  /\ (forall e, run_result (iteration t) self = Raise e ->
                (length (publishes (run_effects (iteration t) self)) < 3)%nat).
Proof.
  intros Hout. unfold run_effects, run_result.
  rewrite iteration_eq, Hout.
  destruct (dbw_enabled (at_gate t self)) eqn:Hflag.
  - destruct cmd as [[throttle brake] angle].
    rewrite loop_tail_enabled by assumption.
    unfold publish, Publisher_publish, getattr, setattr, mbind, M_bind.
    simpl.
    destruct (publish_raises throttle_pub _); simpl.
    { split; [apply prefix_nil|intros; lia]. }
    destruct (publish_raises steer_pub _); simpl.
    { split; [by eexists|intros; lia]. }
    destruct (publish_raises brake_pub _); simpl.
    { split; [by eexists|intros; lia]. }
    split; [done|discriminate].
  - rewrite loop_tail_disabled by assumption. simpl.
    split; [apply prefix_nil|discriminate].
Qed.

(** C4, as the code has it: the body of [loop] has no exception handler.
    An exception raised in an iteration, by the Controller call or by a
    publish, is the result of [loop]: the iterations after it never run.
    An iteration in which the Controller call raises publishes nothing,
    one in which a publish raises has sent fewer than three commands, and
    neither reaches the sleep.  Only an iteration that returns is followed
    by the next one. *)
Theorem exception_ends_the_loop t rest self :
  (forall e, run_result (iteration t) self = Raise e ->
             loop (t :: rest) self = iteration t self
             /\ sleeps (run_effects (iteration t) self) = [])
  /\ (forall e, (tick_outcome t self).2 = Raise e ->
                run_result (iteration t) self = Raise e
                /\ publishes (run_effects (iteration t) self) = [])
  /\ (forall cmd e, (tick_outcome t self).2 = Return cmd ->
                    run_result (iteration t) self = Raise e ->
                    publishes (run_effects (iteration t) self)
                      `prefix_of` commands cmd
                    /\ (length (publishes (run_effects (iteration t) self))
                        < 3)%nat)
  /\ (run_result (iteration t) self = Return tt ->
      run_result (loop (t :: rest)) self
      = run_result (loop rest) (run_state (iteration t) self)
      /\ run_effects (loop (t :: rest)) self
         = run_effects (iteration t) self
           ++ run_effects (loop rest) (run_state (iteration t) self)).
Proof.
  split; [|split; [|split]].
  - intros e Hexn. split; [by apply loop_cons_raise with e|].
    rewrite iteration_sleeps, Hexn. reflexivity.
  - intros e Hout. unfold run_result, run_effects.
    by rewrite (iteration_raised _ _ _ Hout).
  - intros cmd e Hout Hexn.
    destruct (iteration_publishes_prefix _ _ _ Hout) as [Hpre Hlen].
    split; [exact Hpre|by apply (Hlen e)].
  - intros Hret. split.
    + by apply loop_cons_return_result.
    + by apply loop_cons_return_effects.
Qed.

(** ** The rate *)

Lemma sleeps_app es1 es2 : sleeps (es1 ++ es2) = sleeps es1 ++ sleeps es2.
Proof. apply flat_map_app. Qed.

Lemma control_calls_app es1 es2 :
  control_calls (es1 ++ es2) = control_calls es1 ++ control_calls es2.
Proof. apply flat_map_app. Qed.

Lemma publishes_app es1 es2 :
  publishes (es1 ++ es2) = publishes es1 ++ publishes es2.
Proof. apply flat_map_app. Qed.

Lemma iteration_last_effect t self :
  run_result (iteration t) self = Return tt ->
  last (run_effects (iteration t) self) = Some (slept rate_hz).
Proof.
  intros Hret. destruct (iteration_log t self) as [pms ->].
  rewrite Hret.
  change (control_call (tick_args t self)
            :: map (fun pm => published pm.1 pm.2) pms ++ [slept rate_hz])
    with ((control_call (tick_args t self)
            :: map (fun pm => published pm.1 pm.2) pms) ++ [slept rate_hz]).
  apply last_snoc.
Qed.

Lemma loop_sleeps schedule self :
  exists k,
    (k <= length schedule)%nat
    /\ sleeps (run_effects (loop schedule) self) = replicate k rate_hz
    /\ (run_result (loop schedule) self = Return tt -> k = length schedule).
Proof.
  revert self. induction schedule as [|t rest IH]; intros self.
  { exists 0%nat. by repeat split. }
  destruct (result_unit_cases (run_result (iteration t) self))
    as [Hret|[e Hexn]].
  - destruct (IH (run_state (iteration t) self)) as (k & Hk & Hs & Hall).
    exists (S k).
    rewrite (loop_cons_return_effects _ _ _ Hret),
      (loop_cons_return_result _ _ _ Hret).
    rewrite sleeps_app, Hs, iteration_sleeps, Hret.
    repeat split; [simpl; lia|].
    intros Hdone. simpl. f_equal. by apply Hall.
  - exists 0%nat.
    rewrite (loop_cons_raise_effects _ _ _ _ Hexn),
      (loop_cons_raise_result _ _ _ _ Hexn).
    rewrite iteration_sleeps, Hexn.
    repeat split; [simpl; lia|]. discriminate.
Qed.

(** C6: the rate of the loop is the constant 50, a period of 20 ms,
    whatever the parameter server holds; every sleep of a run is a sleep of
    that rate, every iteration that returns ends with it, and a run that
    returns has slept once per iteration. *)
Theorem loop_sleeps_at_50_hz server (t0 : float) schedule :
  rate_hz = 50
  /\ Rate_sleep_dur_ns rate_hz = 20000000
  /\ Forall (fun hz => hz = 50)
       (sleeps (DBWNode_init server t0 schedule).2)
  /\ (forall t self, run_result (iteration t) self = Return tt ->
                     last (run_effects (iteration t) self) = Some (slept 50))
  /\ ((DBWNode_init server t0 schedule).1.1 = Return tt ->
      sleeps (DBWNode_init server t0 schedule).2
      = replicate (length schedule) 50).
Proof.
  destruct (loop_sleeps schedule (new_DBWNode server t0))
    as (k & Hk & Hs & Hall).
  unfold DBWNode_init, run_effects, run_result in *.
  repeat split.
  - rewrite Hs. apply Forall_forall. intros hz Hin.
    by apply elem_of_replicate in Hin as [-> _].
  - intros t self. apply iteration_last_effect.
  - intros Hdone. rewrite Hs, (Hall Hdone). reflexivity.
Qed.

(** ** The parameters *)

Lemma controller_args_insert_fuel_capacity v
    (server : gmap string param_value) :
  controller_args (<["~fuel_capacity" := v]> server) = controller_args server.
Proof.
  unfold controller_args, controller_args_of, read_parameters, get_param.
  simpl. rewrite !lookup_insert_ne by done. reflexivity.
Qed.

(** C5, as the code has it: the eleven parameters are read, each from
    its name with its default; ten of them, each as read, are the keyword
    arguments of the Controller constructor, and [fuel_capacity] is read
    and passed nowhere.  The instance keeps none of them: a run depends on
    the parameter server through [controller_args] only, so not at all on
    [~fuel_capacity]. *)
Theorem ten_parameters_reach_the_controller
    (server : gmap string param_value) :
  length parameter_table = 11%nat
  /\ (forall k d var, (k, d, var) ∈ parameter_table ->
                      var (read_parameters server)
                      = get_param server ("~" +:+ k) d
                      /\ var (read_parameters ∅) = d)
  /\ (forall k d var, (k, d, var) ∈ parameter_table ->
                      k <> "fuel_capacity" ->
                      controller_args server !! k
                      = Some (var (read_parameters server)))
  /\ controller_args server !! "fuel_capacity" = None
  /\ size (dom (controller_args server)) = 10%nat
  /\ (forall t0 : float,
        controller (new_DBWNode server t0)
        = Controller (controller_args server))
  /\ (forall server' (t0 : float) schedule,
        controller_args server' = controller_args server ->
        DBWNode_init server' t0 schedule = DBWNode_init server t0 schedule)
  /\ (forall v (t0 : float) schedule,
        DBWNode_init (<["~fuel_capacity" := v]> server) t0 schedule
        = DBWNode_init server t0 schedule).
Proof.
  assert (Hsame : forall server' (t0 : float) schedule,
             controller_args server' = controller_args server ->
             DBWNode_init server' t0 schedule
             = DBWNode_init server t0 schedule).
  { intros server' t0 schedule Heq.
    unfold DBWNode_init, new_DBWNode. rewrite Heq. reflexivity. }
  split; [reflexivity|].
  split; [|split; [|split; [|split; [|split; [|split]]]]].
  - intros k d var Hin. unfold parameter_table in Hin.
    repeat (apply elem_of_cons in Hin as [Hin|Hin];
            [injection Hin as -> -> ->; split; reflexivity|]).
    by apply elem_of_nil in Hin.
  - intros k d var Hin Hne. unfold parameter_table in Hin.
    repeat (apply elem_of_cons in Hin as [Hin|Hin];
            [injection Hin as -> -> ->; first [reflexivity|done]|]).
    by apply elem_of_nil in Hin.
  - reflexivity.
  - unfold controller_args, controller_args_of.
    rewrite dom_list_to_map_L. reflexivity.
  - reflexivity.
  - exact Hsame.
  - intros v t0 schedule. apply Hsame, controller_args_insert_fuel_capacity.
Qed.

(** ** A node that hears nothing *)

Lemma iteration_quiet_args t self e :
  quiet t ->
  read_control_args e (run_state (iteration t) self)
  = read_control_args e self.
Proof.
  intros [Hb Hd]. destruct (iteration_state t self) as [n ->].
  unfold at_head. rewrite Hb, Hd.
  by destruct ((tick_outcome t self).2).
Qed.

Lemma tick_args_quiet t self :
  quiet t ->
  tick_args t self
  = read_control_args (PrimFloat.sub (clock t) (last_timestamp self)) self.
Proof. intros [Hb _]. unfold tick_args, at_head. by rewrite Hb. Qed.

Lemma loop_quiet_calls schedule self a :
  Forall quiet schedule ->
  a ∈ control_calls (run_effects (loop schedule) self) ->
  read_control_args (kw_elapsed a) self = a.
Proof.
  intros Hquiet. revert self.
  induction Hquiet as [|t rest Ht _ IH]; intros self Hin.
  { by apply elem_of_nil in Hin. }
  assert (Hhere : a ∈ control_calls (run_effects (iteration t) self) ->
                  read_control_args (kw_elapsed a) self = a).
  { rewrite iteration_control_calls. intros ->%list_elem_of_singleton.
    by rewrite (tick_args_quiet _ _ Ht). }
  destruct (result_unit_cases (run_result (iteration t) self))
    as [Hret|[e Hexn]].
  - rewrite (loop_cons_return_effects _ _ _ Hret), control_calls_app in Hin.
    apply elem_of_app in Hin as [Hin|Hin]; [by apply Hhere|].
    apply IH in Hin. by rewrite iteration_quiet_args in Hin.
  - rewrite (loop_cons_raise_effects _ _ _ _ Hexn) in Hin. by apply Hhere.
Qed.

Lemma loop_quiet_engaged schedule self :
  Forall quiet schedule ->
  dbw_enabled self = true ->
  (forall c a, exists cmd, (Controller_control c a).2 = Return cmd) ->
  (forall p m, publish_raises p m = false) ->
  run_result (loop schedule) self = Return tt
  /\ length (control_calls (run_effects (loop schedule) self))
     = length schedule
  /\ (publishes (run_effects (loop schedule) self)).*1
     = concat (replicate (length schedule)
                 [throttle_pub; steer_pub; brake_pub]).
Proof.
  intros Hquiet Hon Htotal Hok. revert self Hon.
  induction Hquiet as [|t rest Ht _ IH]; intros self Hon; [done|].
  destruct (Htotal (controller (at_head t self)) (tick_args t self))
    as [cmd Hout].
  fold (tick_outcome t self) in Hout.
  assert (Hgate : dbw_enabled (at_gate t self) = true).
  { destruct Ht as [Hb Hd]. unfold at_gate, at_head. by rewrite Hb, Hd. }
  pose proof (iteration_engaged t self cmd Hout Hgate
                (fun pm _ => Hok pm.1 pm.2)) as Hit.
  assert (Hret : run_result (iteration t) self = Return tt)
    by (unfold run_result; by rewrite Hit).
  destruct (IH (run_state (iteration t) self)) as (Hr & Hc & Hp).
  { pose proof (iteration_quiet_args t self 0%float Ht) as Hargs.
    apply (f_equal kw_dbw_enabled) in Hargs. simpl in Hargs.
    by rewrite Hargs. }
  rewrite (loop_cons_return_result _ _ _ Hret),
    (loop_cons_return_effects _ _ _ Hret).
  rewrite control_calls_app, publishes_app, fmap_app, length_app.
  rewrite iteration_control_calls, Hc, Hp.
  repeat split; [exact Hr|].
  unfold run_effects at 1. rewrite Hit. simpl.
  rewrite publishes_app, publishes_published. simpl.
  by destruct cmd as [[throttle brake] steer].
Qed.

(** ** The waypoints *)

Lemma step_final_waypoints self self' :
  step self self' -> final_waypoints self' = final_waypoints self.
Proof.
  intros [d s|now s|cmd s].
  - apply deliver_final_waypoints.
  - unfold run_state. by rewrite loop_head_eq.
  - by destruct (loop_tail_state cmd s) as [n ->].
Qed.

Lemma step_attr_final_waypoints_cb self self' :
  step self self' ->
  is_Some (attr_final_waypoints_cb self) ->
  is_Some (attr_final_waypoints_cb self').
Proof.
  intros [d s|now s|cmd s].
  - by destruct d.
  - unfold run_state. by rewrite loop_head_eq.
  - by destruct (loop_tail_state cmd s) as [n ->].
Qed.

Lemma deliver_all_steps ds self : rtc step self (deliver_all ds self).
Proof.
  revert self. induction ds as [|d ds IH]; intros self; [done|].
  rewrite deliver_all_cons. eapply rtc_l; [apply step_deliver|apply IH].
Qed.

Lemma iteration_steps t self : rtc step self (run_state (iteration t) self).
Proof.
  assert (Hhead : rtc step self
            (set_controller (tick_outcome t self).1
               (set_last_timestamp (clock t) (at_head t self)))).
  { eapply rtc_trans; [apply (deliver_all_steps (before t))|].
    apply rtc_once. fold (at_head t self).
    pose proof (step_head (clock t) (at_head t self)) as Hs.
    unfold run_state in Hs. by rewrite loop_head_eq in Hs. }
  unfold run_state. rewrite iteration_eq.
  destruct ((tick_outcome t self).2) as [cmd|e]; [|exact Hhead].
  eapply rtc_trans; [exact Hhead|].
  eapply rtc_trans; [apply (deliver_all_steps (during t))|].
  fold (at_gate t self). apply rtc_once.
  pose proof (step_tail cmd (at_gate t self)) as Hs.
  unfold run_state in Hs.
  by destruct (loop_tail cmd (at_gate t self)) as [[r self1] es].
Qed.

Lemma loop_steps schedule self :
  rtc step self (run_state (loop schedule) self).
Proof.
  revert self. induction schedule as [|t rest IH]; intros self; [done|].
  destruct (result_unit_cases (run_result (iteration t) self))
    as [Hret|[e Hexn]].
  - rewrite (loop_cons_return_state _ _ _ Hret).
    eapply rtc_trans; [apply iteration_steps|apply IH].
  - rewrite (loop_cons_raise_state _ _ _ _ Hexn). apply iteration_steps.
Qed.

Lemma steps_final_waypoints self self' :
  rtc step self self' -> final_waypoints self' = final_waypoints self.
Proof.
  induction 1 as [|s1 s2 s3 H12 _ IH]; [done|].
  rewrite IH. by apply step_final_waypoints.
Qed.

(** ** The pose *)

Lemma same_but_pose_fields self1 self2 :
  same_but_pose self1 self2 ->
  controller self1 = controller self2
  /\ last_timestamp self1 = last_timestamp self2
  /\ count self1 = count self2
  /\ dbw_enabled self1 = dbw_enabled self2
  /\ forall e, read_control_args e self1 = read_control_args e self2.
Proof.
  intros Hsame. unfold same_but_pose in Hsame.
  pose proof (f_equal controller Hsame) as Hc.
  pose proof (f_equal last_timestamp Hsame) as Hl.
  pose proof (f_equal count Hsame) as Hn.
  pose proof (f_equal dbw_enabled Hsame) as Hd.
  pose proof (fun e => f_equal (read_control_args e) Hsame) as Ha.
  by repeat split.
Qed.

Lemma same_but_pose_deliver d self1 self2 :
  on_topic current_pose_topic d = false ->
  same_but_pose self1 self2 ->
  same_but_pose (deliver d self1) (deliver d self2).
Proof.
  unfold same_but_pose. intros Hd Hsame.
  assert (Hcomm : forall self,
            set_current_pose None (deliver d self)
            = deliver d (set_current_pose None self))
    by (intros self; destruct d; try discriminate; reflexivity).
  by rewrite !Hcomm, Hsame.
Qed.

Lemma same_but_pose_current_pose_cb msg self :
  same_but_pose (current_pose_cb msg self) self.
Proof. reflexivity. Qed.

Lemma same_but_pose_deliver_all ds self1 self2 :
  same_but_pose self1 self2 ->
  same_but_pose (deliver_all ds self1)
    (deliver_all (without current_pose_topic ds) self2).
Proof.
  revert self1 self2. induction ds as [|d ds IH]; intros s1 s2 Hsame.
  { exact Hsame. }
  rewrite deliver_all_cons.
  change (without current_pose_topic (d :: ds))
    with (if negb (on_topic current_pose_topic d)
          then d :: without current_pose_topic ds
          else without current_pose_topic ds).
  destruct (on_topic current_pose_topic d) eqn:Hd.
  - apply IH. destruct d; try discriminate.
    unfold same_but_pose in *. rewrite <- Hsame. reflexivity.
  - apply (IH (deliver d s1) (deliver d s2)).
    by apply same_but_pose_deliver.
Qed.

Lemma restore_current_pose self :
  self = set_current_pose (current_pose self) (set_current_pose None self).
Proof. by destruct self. Qed.

Lemma loop_tail_set_current_pose cmd p self :
  loop_tail cmd (set_current_pose p self) =
    match loop_tail cmd self with
    | (r, self1, es) => (r, set_current_pose p self1, es)
    end.
Proof.
  destruct cmd as [[throttle brake] angle].
  unfold loop_tail, publish, Publisher_publish, Rate_sleep, getattr,
    setattr, mbind, M_bind, mret, M_ret. simpl.
  destruct (dbw_enabled self); [|reflexivity].
  repeat (destruct (publish_raises _ _); simpl; [reflexivity|]).
  reflexivity.
Qed.

Lemma same_but_pose_loop_tail cmd self1 self2 :
  same_but_pose self1 self2 ->
  run_result (loop_tail cmd) self1 = run_result (loop_tail cmd) self2
  /\ run_effects (loop_tail cmd) self1 = run_effects (loop_tail cmd) self2
  /\ same_but_pose (run_state (loop_tail cmd) self1)
       (run_state (loop_tail cmd) self2).
Proof.
  intros Hsame. unfold same_but_pose in Hsame.
  rewrite (restore_current_pose self1), (restore_current_pose self2).
  rewrite Hsame. generalize (set_current_pose None self2). intros s0.
  unfold run_result, run_effects, run_state.
  rewrite !loop_tail_set_current_pose.
  by destruct (loop_tail cmd s0) as [[r s0'] es].
Qed.

Lemma same_but_pose_at_gate t self1 self2 :
  same_but_pose self1 self2 ->
  tick_args t self1 = tick_args (without_pose t) self2
  /\ tick_outcome t self1 = tick_outcome (without_pose t) self2
  /\ same_but_pose
       (set_controller (tick_outcome t self1).1
          (set_last_timestamp (clock t) (at_head t self1)))
       (set_controller (tick_outcome (without_pose t) self2).1
          (set_last_timestamp (clock t) (at_head (without_pose t) self2)))
  /\ same_but_pose (at_gate t self1) (at_gate (without_pose t) self2).
Proof.
  intros Hsame.
  pose proof (same_but_pose_deliver_all (before t) _ _ Hsame) as Hhead.
  fold (at_head t self1) in Hhead.
  change (deliver_all (without current_pose_topic (before t)) self2)
    with (at_head (without_pose t) self2) in Hhead.
  destruct (same_but_pose_fields _ _ Hhead) as (Hc & Hl & _ & _ & Ha).
  assert (Hargs : tick_args t self1 = tick_args (without_pose t) self2).
  { unfold tick_args. simpl. by rewrite Hl, Ha. }
  assert (Hout : tick_outcome t self1 = tick_outcome (without_pose t) self2).
  { unfold tick_outcome. by rewrite Hargs, Hc. }
  assert (Hmid : same_but_pose
            (set_controller (tick_outcome t self1).1
               (set_last_timestamp (clock t) (at_head t self1)))
            (set_controller (tick_outcome (without_pose t) self2).1
               (set_last_timestamp (clock t)
                  (at_head (without_pose t) self2)))).
  { rewrite Hout. unfold same_but_pose in *.
    change (set_controller (tick_outcome (without_pose t) self2).1
              (set_last_timestamp (clock t)
                 (set_current_pose None (at_head t self1)))
            = set_controller (tick_outcome (without_pose t) self2).1
                (set_last_timestamp (clock t)
                   (set_current_pose None
                      (at_head (without_pose t) self2)))).
    by rewrite Hhead. }
  repeat split; try assumption.
  unfold at_gate. by apply same_but_pose_deliver_all.
Qed.

Lemma same_but_pose_iteration t self1 self2 :
  same_but_pose self1 self2 ->
  run_result (iteration t) self1
  = run_result (iteration (without_pose t)) self2
  /\ run_effects (iteration t) self1
     = run_effects (iteration (without_pose t)) self2
  /\ same_but_pose (run_state (iteration t) self1)
       (run_state (iteration (without_pose t)) self2).
Proof.
  intros Hsame.
  destruct (same_but_pose_at_gate t _ _ Hsame) as (Ha & Ho & Hmid & Hg).
  unfold run_result, run_effects, run_state.
  rewrite !iteration_eq, <- Ho, <- Ha.
  rewrite <- Ho in Hmid.
  destruct ((tick_outcome t self1).2) as [cmd|e]; [|by repeat split].
  destruct (same_but_pose_loop_tail cmd _ _ Hg) as (Hr & He & Hs).
  unfold run_result, run_effects, run_state in Hr, He, Hs.
  destruct (loop_tail cmd (at_gate t self1)) as [[r1 s1] es1].
  destruct (loop_tail cmd (at_gate (without_pose t) self2))
    as [[r2 s2] es2].
  simpl in *. by subst.
Qed.

Lemma same_but_pose_loop schedule self1 self2 :
  same_but_pose self1 self2 ->
  run_result (loop schedule) self1
  = run_result (loop (map without_pose schedule)) self2
  /\ run_effects (loop schedule) self1
     = run_effects (loop (map without_pose schedule)) self2
  /\ same_but_pose (run_state (loop schedule) self1)
       (run_state (loop (map without_pose schedule)) self2).
Proof.
  revert self1 self2.
  induction schedule as [|t rest IH]; intros self1 self2 Hsame.
  { by repeat split. }
  destruct (same_but_pose_iteration t _ _ Hsame) as (Hr & He & Hs).
  change (map without_pose (t :: rest))
    with (without_pose t :: map without_pose rest).
  destruct (result_unit_cases (run_result (iteration t) self1))
    as [Hret|[e Hexn]].
  - pose proof Hret as Hret2. rewrite Hr in Hret2.
    rewrite (loop_cons_return_result _ _ _ Hret),
      (loop_cons_return_effects _ _ _ Hret),
      (loop_cons_return_state _ _ _ Hret),
      (loop_cons_return_result _ _ _ Hret2),
      (loop_cons_return_effects _ _ _ Hret2),
      (loop_cons_return_state _ _ _ Hret2).
    destruct (IH _ _ Hs) as (Hr' & He' & Hs').
    by rewrite Hr', He', He.
  - pose proof Hexn as Hexn2. rewrite Hr in Hexn2.
    rewrite (loop_cons_raise_result _ _ _ _ Hexn),
      (loop_cons_raise_effects _ _ _ _ Hexn),
      (loop_cons_raise_state _ _ _ _ Hexn),
      (loop_cons_raise_result _ _ _ _ Hexn2),
      (loop_cons_raise_effects _ _ _ _ Hexn2),
      (loop_cons_raise_state _ _ _ _ Hexn2).
    by repeat split.
Qed.

(** C10: the pose handler changes [current_pose] and nothing else, and
    two runs from the same instance whose schedules are the same once the
    deliveries on [current_pose] are taken out have the same result and
    the same effects, that is the same Controller calls with the same
    arguments and the same publications in the same order, and end in
    instances that differ at most in [current_pose]. *)
Theorem pose_messages_do_not_interfere schedule1 schedule2 self :
  map without_pose schedule1 = map without_pose schedule2 ->
  (forall msg self', same_but_pose (current_pose_cb msg self') self')
  /\ run_result (loop schedule1) self = run_result (loop schedule2) self
  /\ run_effects (loop schedule1) self = run_effects (loop schedule2) self
  /\ same_but_pose (run_state (loop schedule1) self)
       (run_state (loop schedule2) self).
Proof.
  intros Hsched.
  destruct (same_but_pose_loop schedule1 self self eq_refl)
    as (Hr1 & He1 & Hs1).
  destruct (same_but_pose_loop schedule2 self self eq_refl)
    as (Hr2 & He2 & Hs2).
  rewrite Hsched in Hr1, He1, Hs1.
  split; [intros msg self'; apply same_but_pose_current_pose_cb|].
  split; [by rewrite Hr1, Hr2|].
  split; [by rewrite He1, He2|].
  unfold same_but_pose in *. by rewrite Hs1, Hs2.
Qed.

End Properties.

(** * Concrete runs *)

(** C1 as stated fails: the flag read into [control_args] is false, a
    message on [/vehicle/dbw_enabled] is handled while the Controller
    runs, and the iteration publishes on the three topics. *)
Lemma snapshot_flag_false_yet_published :
  map kw_dbw_enabled
    (control_calls (run_effects (iteration regained_mid_tick) echo_node))
  = [false]
  /\ (publishes (run_effects (iteration regained_mid_tick) echo_node)).*1
     = [throttle_pub; steer_pub; brake_pub].
Proof. split; reflexivity. Qed.

Lemma closed_gate_publishes_nothing_witness :
  (dbw_enabled (at_gate overridden_tick echo_node) = false
   /\ publishes (run_effects (iteration overridden_tick) echo_node) = [])
  /\ (none_on dbw_enabled_topic (during overridden_tick)
      /\ kw_dbw_enabled (tick_args overridden_tick echo_node) = false
      /\ publishes (run_effects (iteration overridden_tick) echo_node) = []).
Proof.
  split.
  - split; [reflexivity|].
    apply (proj1 (closed_gate_publishes_nothing overridden_tick echo_node)).
    reflexivity.
  - split; [apply Forall_nil_2|]. split; [reflexivity|].
    apply (proj2 (closed_gate_publishes_nothing overridden_tick echo_node)).
    + apply Forall_nil_2.
    + reflexivity.
Defined.

Lemma engaged_tick_publishes_three_commands_witness :
  (tick_outcome resumed_tick echo_node).2
  = Return (5%float, 0.25%float, 0.5%float)
  /\ dbw_enabled (at_gate resumed_tick echo_node) = true
  /\ run_result (iteration resumed_tick) echo_node = Return tt
  /\ publishes (run_effects (iteration resumed_tick) echo_node) =
       [ (throttle_pub,
          ThrottleMsg {| throttle_enable := true;
                         throttle_pedal_cmd_type := CMD_PERCENT;
                         throttle_pedal_cmd := 5 |});
         (steer_pub,
          SteeringMsg {| steering_enable := true;
                         steering_wheel_angle_cmd := 0.5 |});
         (brake_pub,
          BrakeMsg {| brake_enable := true;
                      brake_pedal_cmd_type := CMD_TORQUE;
                      brake_pedal_cmd := 0.25 |}) ]
  /\ count (run_state (iteration resumed_tick) echo_node) = 1.
Proof.
  split; [reflexivity|]. split; [reflexivity|].
  apply (engaged_tick_publishes_three_commands resumed_tick echo_node).
  - reflexivity.
  - reflexivity.
  - intros pm _. reflexivity.
Defined.

(** C3 as stated fails: the clock reads 2.0 at construction and 1.0 at
    the first iteration, and the Controller is given [elapsed = -1.0]. *)
Lemma clock_stepping_back_gives_negative_elapsed :
  map kw_elapsed
    (control_calls
       (@DBWNode_init echo_controller ∅ 2%float [idle_tick 1%float]).2)
  = [(-1)%float]
  /\ map (fun a => PrimFloat.leb 0 (kw_elapsed a))
       (control_calls
          (@DBWNode_init echo_controller ∅ 2%float [idle_tick 1%float]).2)
     = [false].
Proof. split; reflexivity. Qed.

(** C4 as stated fails: the Controller raises in the second of three
    iterations, the exception is the result of the loop and the third
    iteration never runs. *)
Lemma controller_exception_leaves_loop :
  run_result
    (loop [idle_tick 0.02%float; idle_tick 0.04%float; idle_tick 0.06%float])
    failing_node
  = Raise ControlError
  /\ length
       (control_calls
          (run_effects
             (loop [idle_tick 0.02%float; idle_tick 0.04%float;
                    idle_tick 0.06%float])
             failing_node))
     = 2%nat
  /\ sleeps
       (run_effects
          (loop [idle_tick 0.02%float; idle_tick 0.04%float;
                 idle_tick 0.06%float])
          failing_node)
     = [50].
Proof. repeat split; reflexivity. Qed.

Lemma exception_ends_the_loop_witness :
  (let s := run_state (iteration (idle_tick 0.02%float)) failing_node in
   let t := idle_tick 0.04%float in
   let rest := [idle_tick 0.06%float] in
   run_result (iteration t) s = Raise ControlError
   /\ (tick_outcome t s).2 = Raise ControlError
   /\ loop (t :: rest) s = iteration t s
   /\ sleeps (run_effects (iteration t) s) = []
   /\ publishes (run_effects (iteration t) s) = [])
  /\ (let t := idle_tick 0.02%float in
      (tick_outcome t closed_steering_node).2
      = Return (1%float, 0%float, 0%float)
      /\ run_result (iteration t) closed_steering_node
         = Raise (PublishError steer_pub)
      /\ publishes (run_effects (iteration t) closed_steering_node)
         = [ (throttle_pub,
              ThrottleMsg {| throttle_enable := true;
                             throttle_pedal_cmd_type := CMD_PERCENT;
                             throttle_pedal_cmd := 1 |}) ]
      /\ (length (publishes (run_effects (iteration t) closed_steering_node))
          < 3)%nat)
  /\ (let t := idle_tick 0.02%float in
      let rest := [idle_tick 0.04%float] in
      run_result (iteration t) failing_node = Return tt
      /\ run_result (loop (t :: rest)) failing_node
         = run_result (loop rest) (run_state (iteration t) failing_node)).
Proof.
  split; [|split].
  - pose proof (exception_ends_the_loop (idle_tick 0.04%float)
                  [idle_tick 0.06%float]
                  (run_state (iteration (idle_tick 0.02%float)) failing_node))
      as (Hraise & Hcontrol & _ & _).
    split; [reflexivity|]. split; [reflexivity|].
    split; [apply (Hraise ControlError); reflexivity|].
    split; [apply (Hraise ControlError); reflexivity|].
    apply (Hcontrol ControlError). reflexivity.
  - pose proof (exception_ends_the_loop (idle_tick 0.02%float) []
                  closed_steering_node) as (_ & _ & Hpublish & _).
    split; [reflexivity|]. split; [reflexivity|]. split; [reflexivity|].
    apply (Hpublish (1%float, 0%float, 0%float) (PublishError steer_pub));
      reflexivity.
  - pose proof (exception_ends_the_loop (idle_tick 0.02%float)
                  [idle_tick 0.04%float] failing_node) as (_ & _ & _ & Hnext).
    split; [reflexivity|]. apply Hnext. reflexivity.
Defined.

(** C5 as stated fails: the value of [~fuel_capacity] on the parameter
    server is read and is no keyword argument of the Controller
    constructor. *)
Lemma fuel_capacity_is_not_forwarded :
  ("fuel_capacity", PFloat 13.5, fuel_capacity) ∈ parameter_table
  /\ fuel_capacity (read_parameters fuel_only) = PFloat 20
  /\ ~ forwarded fuel_only ("fuel_capacity", PFloat 13.5, fuel_capacity)
  /\ controller_args fuel_only = controller_args ∅.
Proof.
  split; [unfold parameter_table; repeat constructor|].
  split; [reflexivity|]. split; [discriminate|reflexivity].
Qed.

Lemma ten_parameters_reach_the_controller_witness :
  ("vehicle_mass", PFloat 1736.35, vehicle_mass) ∈ parameter_table
  /\ "vehicle_mass" <> "fuel_capacity"
  /\ vehicle_mass (read_parameters fuel_only) = PFloat 1736.35
  /\ controller_args fuel_only !! "vehicle_mass" = Some (PFloat 1736.35)
  /\ controller_args ∅ = controller_args fuel_only
  /\ @DBWNode_init echo_controller ∅ 0%float [resumed_tick]
     = @DBWNode_init echo_controller fuel_only 0%float [resumed_tick].
Proof.
  pose proof (@ten_parameters_reach_the_controller echo_controller fuel_only)
    as (_ & Hread & Hfwd & _ & _ & _ & Hsame & _).
  assert (Hin : ("vehicle_mass", PFloat 1736.35, vehicle_mass)
                ∈ parameter_table)
    by (unfold parameter_table; repeat constructor).
  assert (Hne : "vehicle_mass" <> "fuel_capacity") by discriminate.
  split; [exact Hin|]. split; [exact Hne|].
  split; [exact (proj1 (Hread _ _ _ Hin))|].
  split; [exact (Hfwd _ _ _ Hin Hne)|].
  split; [reflexivity|].
  apply Hsame. reflexivity.
Defined.

Lemma loop_sleeps_at_50_hz_witness :
  run_result (iteration resumed_tick) echo_node = Return tt
  /\ last (run_effects (iteration resumed_tick) echo_node) = Some (slept 50)
  /\ (@DBWNode_init echo_controller fuel_only 0%float
        [idle_tick 0.02%float; resumed_tick]).1.1 = Return tt
  /\ sleeps (@DBWNode_init echo_controller fuel_only 0%float
               [idle_tick 0.02%float; resumed_tick]).2 = [50; 50].
Proof.
  pose proof (@loop_sleeps_at_50_hz echo_controller fuel_only 0%float
                [idle_tick 0.02%float; resumed_tick])
    as (_ & _ & _ & Hlast & Hall).
  split; [reflexivity|].
  split; [apply Hlast; reflexivity|].
  split; [reflexivity|].
  apply Hall. reflexivity.
Defined.

Lemma pose_messages_do_not_interfere_witness :
  map without_pose [resumed_tick; idle_tick 1.02%float]
  = map without_pose [without_pose resumed_tick; idle_tick 1.02%float]
  /\ run_effects (loop [resumed_tick; idle_tick 1.02%float]) echo_node
     = run_effects
         (loop [without_pose resumed_tick; idle_tick 1.02%float]) echo_node
  /\ current_pose
       (run_state (loop [resumed_tick; idle_tick 1.02%float]) echo_node)
     <> current_pose
          (run_state
             (loop [without_pose resumed_tick; idle_tick 1.02%float])
             echo_node).
Proof.
  assert (Hs : map without_pose [resumed_tick; idle_tick 1.02%float]
               = map without_pose
                   [without_pose resumed_tick; idle_tick 1.02%float])
    by reflexivity.
  split; [exact Hs|].
  split; [|discriminate].
  exact (proj1 (proj2 (proj2
    (pose_messages_do_not_interfere _ _ echo_node Hs)))).
Defined.

(** * Further properties of the node *)

Section MoreProperties.
Context {E : Collaborators}.
Implicit Types (self : DBWNode E) (t : tick) (ds : list delivery).

(** ** Who assigns what *)

(** X7: no callback assigns [last_timestamp], [count], [controller] or
    [final_waypoints]: they are the same after any run of callbacks. *)
Theorem callbacks_leave_loop_attributes ds self :
  last_timestamp (deliver_all ds self) = last_timestamp self
  /\ count (deliver_all ds self) = count self
  /\ controller (deliver_all ds self) = controller self
  /\ final_waypoints (deliver_all ds self) = final_waypoints self.
Proof.
  split; [apply (deliver_all_preserves last_timestamp deliver_last_timestamp)|].
  split; [apply (deliver_all_preserves count deliver_count)|].
  split; [|apply (deliver_all_preserves final_waypoints
                    deliver_final_waypoints)].
  apply (deliver_all_preserves controller).
  intros d s. by destruct d.
Qed.

Lemma deliver_all_controller ds self :
  controller (deliver_all ds self) = controller self.
Proof.
  apply (deliver_all_preserves controller). intros d s. by destruct d.
Qed.

Lemma callback_view_deliver d self1 self2 :
  callback_view self1 = callback_view self2 ->
  callback_view (deliver d self1) = callback_view (deliver d self2).
Proof.
  unfold callback_view, read_control_args. intros Hview.
  injection Hview as Htv Hcv Htav Hcav Hen Hca Hcte Hpose Hattr.
  destruct d; simpl; congruence.
Qed.

Lemma callback_view_deliver_all ds self1 self2 :
  callback_view self1 = callback_view self2 ->
  callback_view (deliver_all ds self1) = callback_view (deliver_all ds self2).
Proof.
  revert self1 self2. induction ds as [|d ds IH]; intros s1 s2 Hview.
  { exact Hview. }
  rewrite !deliver_all_cons. by apply IH, callback_view_deliver.
Qed.

Lemma callback_view_iteration t self1 self2 :
  callback_view self1 = callback_view self2 ->
  run_result (iteration t) self1 = Return tt ->
  callback_view (run_state (iteration t) self1)
  = callback_view (deliver_all (before t ++ during t) self2).
Proof.
  intros Hview Hret.
  destruct (iteration_state t self1) as [n ->].
  unfold run_result in Hret. rewrite iteration_eq in Hret.
  destruct ((tick_outcome t self1).2) as [cmd|e]; [|discriminate].
  rewrite deliver_all_app.
  change (callback_view
            (deliver_all (during t)
               (set_controller (tick_outcome t self1).1
                  (set_last_timestamp (clock t) (at_head t self1))))
          = callback_view
              (deliver_all (during t) (deliver_all (before t) self2))).
  apply callback_view_deliver_all.
  change (callback_view (deliver_all (before t) self1)
          = callback_view (deliver_all (before t) self2)).
  by apply callback_view_deliver_all.
Qed.

Lemma callback_view_loop schedule self1 self2 :
  callback_view self1 = callback_view self2 ->
  run_result (loop schedule) self1 = Return tt ->
  callback_view (run_state (loop schedule) self1)
  = callback_view (deliver_all (deliveries schedule) self2).
Proof.
  revert self1 self2.
  induction schedule as [|t rest IH]; intros s1 s2 Hview Hret.
  { exact Hview. }
  destruct (result_unit_cases (run_result (iteration t) s1))
    as [Hit|[e Hexn]].
  - rewrite (loop_cons_return_result _ _ _ Hit) in Hret.
    rewrite (loop_cons_return_state _ _ _ Hit).
    change (deliveries (t :: rest))
      with ((before t ++ during t) ++ deliveries rest).
    rewrite deliver_all_app.
    apply IH; [|exact Hret].
    by apply callback_view_iteration.
  - rewrite (loop_cons_raise_result _ _ _ _ Hexn) in Hret. discriminate.
Qed.

(** X6: the loop thread assigns none of the attributes the callbacks
    assign: after a run that returns, the seven values read into
    [control_args], [current_pose] and the instance name
    [final_waypoints_cb] are what the callbacks of the schedule, run alone
    and in order, leave. *)
Theorem loop_leaves_callback_attributes schedule self :
  run_result (loop schedule) self = Return tt ->
  callback_view (run_state (loop schedule) self)
  = callback_view (deliver_all (deliveries schedule) self).
Proof. by apply callback_view_loop. Qed.

(** ** Last write wins, topic by topic *)

Lemma DBWNode_ext self1 self2 :
  controller self1 = controller self2 ->
  last_timestamp self1 = last_timestamp self2 ->
  count self1 = count self2 ->
  final_waypoints self1 = final_waypoints self2 ->
  callback_view self1 = callback_view self2 ->
  self1 = self2.
Proof.
  destruct self1, self2. unfold callback_view, read_control_args. simpl.
  intros -> -> -> -> Hview. by injection Hview as -> -> -> -> -> -> -> -> ->.
Qed.

Lemma deliver_all_snoc ds d self :
  deliver_all (ds ++ [d]) self = deliver d (deliver_all ds self).
Proof. by rewrite deliver_all_app. Qed.

Lemma latest_snoc tp ds d :
  latest tp (ds ++ [d]) = if on_topic tp d then Some d else latest tp ds.
Proof.
  unfold latest. rewrite List.filter_app. simpl.
  destruct (on_topic tp d); [apply last_snoc|by rewrite app_nil_r].
Qed.

(** An attribute that only the callback of [tp] assigns, and assigns from
    the message alone, is after a run of callbacks what the last delivery
    on [tp] gives it. *)
Lemma attribute_latest {A : Type} (f : DBWNode E -> A) tp :
  (forall d s1 s2, on_topic tp d = true ->
                   f (deliver d s1) = f (deliver d s2)) ->
  (forall d s, on_topic tp d = false -> f (deliver d s) = f s) ->
  forall ds self,
    f (deliver_all ds self) =
      match latest tp ds with
      | Some d => f (deliver d self)
      | None => f self
      end.
Proof.
  intros Hown Hframe ds self.
  induction ds as [|d ds IH] using rev_ind; [reflexivity|].
  rewrite deliver_all_snoc, latest_snoc.
  destruct (on_topic tp d) eqn:Hd.
  - by apply Hown.
  - rewrite Hframe by assumption. exact IH.
Qed.

(** Discharges the two side conditions of [attribute_latest]. *)
Ltac owned_by f tp :=
  rewrite !(attribute_latest f tp
              ltac:(intros [] ? ?; try reflexivity; discriminate)
              ltac:(intros [] ?; try reflexivity; discriminate)).

(** X3: the instance that a run of callbacks leaves depends only on the
    last delivery on each topic: two runs with the same last delivery on
    every topic, whatever came before and in whatever order the topics
    interleave, leave the same instance. *)
Theorem last_delivery_per_topic_decides ds1 ds2 self :
  (forall tp, latest tp ds1 = latest tp ds2) ->
  deliver_all ds1 self = deliver_all ds2 self.
Proof.
  intros Hlatest.
  apply DBWNode_ext.
  - by rewrite !deliver_all_controller.
  - by rewrite !(deliver_all_preserves last_timestamp deliver_last_timestamp).
  - by rewrite !(deliver_all_preserves count deliver_count).
  - by rewrite !(deliver_all_preserves final_waypoints
                   deliver_final_waypoints).
  - assert (target_vel (deliver_all ds1 self)
            = target_vel (deliver_all ds2 self))
      by (owned_by target_vel twist_cmd_topic; by rewrite Hlatest).
    assert (curr_vel (deliver_all ds1 self)
            = curr_vel (deliver_all ds2 self))
      by (owned_by curr_vel current_velocity_topic; by rewrite Hlatest).
    assert (target_ang_vel (deliver_all ds1 self)
            = target_ang_vel (deliver_all ds2 self))
      by (owned_by target_ang_vel twist_cmd_topic; by rewrite Hlatest).
    assert (curr_ang_vel (deliver_all ds1 self)
            = curr_ang_vel (deliver_all ds2 self))
      by (owned_by curr_ang_vel current_velocity_topic; by rewrite Hlatest).
    assert (dbw_enabled (deliver_all ds1 self)
            = dbw_enabled (deliver_all ds2 self))
      by (owned_by dbw_enabled dbw_enabled_topic; by rewrite Hlatest).
    assert (curr_angle (deliver_all ds1 self)
            = curr_angle (deliver_all ds2 self))
      by (owned_by curr_angle steering_report_topic; by rewrite Hlatest).
    assert (cte (deliver_all ds1 self) = cte (deliver_all ds2 self))
      by (owned_by cte cte_topic; by rewrite Hlatest).
    assert (current_pose (deliver_all ds1 self)
            = current_pose (deliver_all ds2 self))
      by (owned_by current_pose current_pose_topic; by rewrite Hlatest).
    assert (attr_final_waypoints_cb (deliver_all ds1 self)
            = attr_final_waypoints_cb (deliver_all ds2 self))
      by (owned_by attr_final_waypoints_cb final_waypoints_topic;
          by rewrite Hlatest).
    unfold callback_view, read_control_args. congruence.
Qed.

(** ** The Controller across a run *)

Lemma iteration_controller t self :
  controller (run_state (iteration t) self)
  = (Controller_control (controller self) (tick_args t self)).1.
Proof.
  destruct (iteration_state t self) as [n ->]. simpl.
  rewrite deliver_all_controller. simpl.
  unfold tick_outcome, at_head. by rewrite deliver_all_controller.
Qed.

Lemma controller_after_app c calls1 calls2 :
  controller_after c (calls1 ++ calls2)
  = controller_after (controller_after c calls1) calls2.
Proof. apply foldl_app. Qed.

(** X4: the node never replaces or resets its controller: after any run,
    also one that raised, the controller is the one obtained from the
    controller of the start by the calls of the log, each call made on
    the controller the previous call left. *)
Theorem controller_threads_through_the_calls schedule self :
  controller (run_state (loop schedule) self)
  = controller_after (controller self)
      (control_calls (run_effects (loop schedule) self)).
Proof.
  revert self. induction schedule as [|t rest IH]; intros self.
  { reflexivity. }
  destruct (result_unit_cases (run_result (iteration t) self))
    as [Hit|[e Hexn]].
  - rewrite (loop_cons_return_state _ _ _ Hit),
      (loop_cons_return_effects _ _ _ Hit).
    rewrite control_calls_app, controller_after_app, IH.
    by rewrite iteration_control_calls, iteration_controller.
  - rewrite (loop_cons_raise_state _ _ _ _ Hexn),
      (loop_cons_raise_effects _ _ _ _ Hexn).
    by rewrite iteration_control_calls, iteration_controller.
Qed.

(** ** Calls, sleeps and elapsed times of a run *)

(** X11: in any run the Controller is called once per iteration entered
    and the loop sleeps once per iteration completed: the calls are as
    many as the sleeps when the run returns and one more when it raises;
    a run that returns has called the Controller once per tick. *)
Theorem one_call_and_one_sleep_per_tick schedule self :
  (length (control_calls (run_effects (loop schedule) self))
   <= length schedule)%nat
  /\ length (control_calls (run_effects (loop schedule) self))
     = (length (sleeps (run_effects (loop schedule) self))
        + match run_result (loop schedule) self with
          | Return _ => 0
          | Raise _ => 1
          end)%nat
  /\ (run_result (loop schedule) self = Return tt ->
      length (control_calls (run_effects (loop schedule) self))
      = length schedule).
Proof.
  revert self. induction schedule as [|t rest IH]; intros self.
  { by repeat split. }
  destruct (result_unit_cases (run_result (iteration t) self))
    as [Hit|[e Hexn]].
  - destruct (IH (run_state (iteration t) self)) as (Hle & Heq & Hall).
    rewrite (loop_cons_return_effects _ _ _ Hit),
      (loop_cons_return_result _ _ _ Hit).
    rewrite control_calls_app, sleeps_app, !length_app.
    rewrite iteration_control_calls, iteration_sleeps, Hit. simpl.
    split; [lia|]. split; [lia|]. intros Hret. by rewrite (Hall Hret).
  - rewrite (loop_cons_raise_effects _ _ _ _ Hexn),
      (loop_cons_raise_result _ _ _ _ Hexn).
    rewrite iteration_control_calls, iteration_sleeps, Hexn. simpl.
    split; [lia|]. split; [lia|]. discriminate.
Qed.

(** X5: the elapsed times given to the Controller in a run are the
    differences of successive clock readings, the first one against the
    [last_timestamp] of the start: all of them when the run returns, the
    first ones when it raises. *)
Theorem elapsed_values_of_a_run schedule self :
  map kw_elapsed (control_calls (run_effects (loop schedule) self))
    `prefix_of` elapsed_values (last_timestamp self) (map clock schedule)
  /\ (run_result (loop schedule) self = Return tt ->
      map kw_elapsed (control_calls (run_effects (loop schedule) self))
      = elapsed_values (last_timestamp self) (map clock schedule)).
Proof.
  revert self. induction schedule as [|t rest IH]; intros self.
  { by split. }
  change (elapsed_values (last_timestamp self) (map clock (t :: rest)))
    with (PrimFloat.sub (clock t) (last_timestamp self)
            :: elapsed_values (clock t) (map clock rest)).
  destruct (result_unit_cases (run_result (iteration t) self))
    as [Hit|[e Hexn]].
  - destruct (IH (run_state (iteration t) self)) as [Hpre Hall].
    rewrite iteration_last_timestamp in Hpre, Hall.
    rewrite (loop_cons_return_effects _ _ _ Hit),
      (loop_cons_return_result _ _ _ Hit).
    rewrite control_calls_app, map_app, iteration_control_calls.
    change (map kw_elapsed [tick_args t self])
      with [kw_elapsed (tick_args t self)].
    rewrite tick_args_elapsed.
    split; [by apply prefix_cons|].
    intros Hret. simpl. by rewrite (Hall Hret).
  - rewrite (loop_cons_raise_effects _ _ _ _ Hexn),
      (loop_cons_raise_result _ _ _ _ Hexn).
    rewrite iteration_control_calls.
    change (map kw_elapsed [tick_args t self])
      with [kw_elapsed (tick_args t self)].
    rewrite tick_args_elapsed.
    split; [apply prefix_cons, prefix_nil|discriminate].
Qed.

(** ** The publication counter and the order of publications *)

Lemma publish_count throttle brake steer self :
  run_state (publish throttle brake steer) self
  = set_count (count self + 1) self.
Proof.
  unfold run_state, publish, Publisher_publish, getattr, setattr, mbind,
    M_bind. simpl.
  by repeat (destruct (publish_raises _ _); simpl).
Qed.

Lemma iteration_count t self :
  count (run_state (iteration t) self) =
    count self
    + match (tick_outcome t self).2 with
      | Return _ => if dbw_enabled (at_gate t self) then 1 else 0
      | Raise _ => 0
      end.
Proof.
  unfold run_state. rewrite iteration_eq.
  destruct ((tick_outcome t self).2) as [cmd|e].
  - destruct (dbw_enabled (at_gate t self)) eqn:Hflag.
    + destruct cmd as [[throttle brake] angle].
      rewrite loop_tail_enabled by assumption.
      pose proof (publish_count throttle brake angle (at_gate t self))
        as Hcount.
      unfold run_state in Hcount.
      destruct (publish throttle brake angle (at_gate t self))
        as [[[u|e] self1] es]; simpl in *; subst self1; simpl;
        by rewrite at_gate_count.
    + rewrite loop_tail_disabled by assumption. simpl.
      rewrite at_gate_count. lia.
  - simpl. unfold at_head.
    rewrite (deliver_all_preserves count deliver_count). lia.
Qed.

Lemma iteration_publishers t self :
  match run_result (iteration t) self with
  | Return _ =>
      (publishes (run_effects (iteration t) self)).*1 = []
      /\ count (run_state (iteration t) self) = count self
      \/ (publishes (run_effects (iteration t) self)).*1 = publication_order
         /\ count (run_state (iteration t) self) = count self + 1
  | Raise _ =>
      (publishes (run_effects (iteration t) self)).*1
        `prefix_of` publication_order
      /\ (length (publishes (run_effects (iteration t) self)) < 3)%nat
      /\ count self <= count (run_state (iteration t) self) <= count self + 1
  end.
Proof.
  rewrite iteration_count.
  unfold run_result, run_effects. rewrite iteration_eq.
  destruct ((tick_outcome t self).2) as [cmd|e].
  - destruct (dbw_enabled (at_gate t self)) eqn:Hflag.
    + destruct cmd as [[throttle brake] angle].
      rewrite loop_tail_enabled by assumption.
      unfold publish, Publisher_publish, getattr, setattr, mbind, M_bind.
      simpl.
      destruct (publish_raises throttle_pub _); simpl.
      { split; [apply prefix_nil|]. split; lia. }
      destruct (publish_raises steer_pub _); simpl.
      { split; [by eexists|]. split; lia. }
      destruct (publish_raises brake_pub _); simpl.
      { split; [by eexists|]. split; lia. }
      by right.
    + rewrite loop_tail_disabled by assumption. simpl.
      left. split; [reflexivity|lia].
  - simpl. split; [apply prefix_nil|]. split; lia.
Qed.

(** X1: [count] counts the entries into [publish]: an iteration adds one
    exactly when the Controller returned and the flag was true at line
    125, also when a publish then raises.  Over a run [count] never
    decreases and bounds the publications, three per entry, with equality
    when the run returns. *)
Theorem count_counts_entries_into_publish schedule self :
  (forall t s,
     count (run_state (iteration t) s) =
       count s
       + match (tick_outcome t s).2 with
         | Return _ => if dbw_enabled (at_gate t s) then 1 else 0
         | Raise _ => 0
         end)
  /\ count self <= count (run_state (loop schedule) self)
  /\ Z.of_nat (length (publishes (run_effects (loop schedule) self)))
     <= 3 * (count (run_state (loop schedule) self) - count self)
  /\ (run_result (loop schedule) self = Return tt ->
      Z.of_nat (length (publishes (run_effects (loop schedule) self)))
      = 3 * (count (run_state (loop schedule) self) - count self)).
Proof.
  split; [intros t s; apply iteration_count|].
  revert self. induction schedule as [|t rest IH]; intros self.
  { simpl. unfold run_state, run_effects. simpl. repeat split; lia. }
  pose proof (iteration_publishers t self) as Hit.
  destruct (result_unit_cases (run_result (iteration t) self))
    as [Hret|[e Hexn]].
  - rewrite Hret in Hit.
    destruct (IH (run_state (iteration t) self)) as (Hle & Hbound & Heq).
    rewrite (loop_cons_return_state _ _ _ Hret),
      (loop_cons_return_effects _ _ _ Hret),
      (loop_cons_return_result _ _ _ Hret).
    rewrite publishes_app, length_app.
    assert (Hlen : Z.of_nat (length (publishes (run_effects (iteration t) self)))
                   = 3 * (count (run_state (iteration t) self) - count self)).
    { rewrite <- (length_fmap fst).
      destruct Hit as [[-> ->]|[-> ->]]; simpl; lia. }
    split; [lia|]. split; [lia|]. intros Hdone. specialize (Heq Hdone). lia.
  - rewrite Hexn in Hit. destruct Hit as (_ & Hlen & Hcount).
    rewrite (loop_cons_raise_state _ _ _ _ Hexn),
      (loop_cons_raise_effects _ _ _ _ Hexn),
      (loop_cons_raise_result _ _ _ _ Hexn).
    split; [lia|]. split; [|discriminate].
    pose proof (iteration_count t self) as Hc.
    destruct (decide (count (run_state (iteration t) self) = count self))
      as [Hsame|Hmore]; [|lia].
    assert (Hnone : publishes (run_effects (iteration t) self) = []).
    { unfold run_effects. rewrite iteration_eq.
      destruct ((tick_outcome t self).2) as [cmd|e']; [|reflexivity].
      destruct (dbw_enabled (at_gate t self)) eqn:Hflag; [lia|].
      by rewrite loop_tail_disabled by assumption. }
    rewrite Hnone. simpl. lia.
Qed.

(** X2: the publications of a run come tick by tick in the order
    throttle, steering, brake: their publishers are whole groups of three
    followed, only when the run raised, by the first ones of a group. *)
Theorem publications_come_in_order schedule self :
  exists k pre,
    (publishes (run_effects (loop schedule) self)).*1
    = concat (replicate k publication_order) ++ pre
    /\ pre `prefix_of` publication_order
    /\ (length pre < 3)%nat
    /\ (run_result (loop schedule) self = Return tt -> pre = []).
Proof.
  revert self. induction schedule as [|t rest IH]; intros self.
  { exists 0%nat, []. repeat split; [apply prefix_nil|simpl; lia]. }
  pose proof (iteration_publishers t self) as Hit.
  destruct (result_unit_cases (run_result (iteration t) self))
    as [Hret|[e Hexn]].
  - rewrite Hret in Hit.
    destruct (IH (run_state (iteration t) self))
      as (k & pre & Hrest & Hpre & Hlen & Hnil).
    rewrite (loop_cons_return_effects _ _ _ Hret),
      (loop_cons_return_result _ _ _ Hret).
    rewrite publishes_app, fmap_app, Hrest.
    destruct Hit as [[-> _]|[-> _]].
    + by exists k, pre.
    + exists (S k), pre. by repeat split.
  - rewrite Hexn in Hit. destruct Hit as (Hpre & Hlen & _).
    rewrite (loop_cons_raise_effects _ _ _ _ Hexn),
      (loop_cons_raise_result _ _ _ _ Hexn).
    exists 0%nat, (publishes (run_effects (iteration t) self)).*1.
    rewrite length_fmap. by repeat split.
Qed.

(** ** A node whose override stays released *)

Lemma keeps_released_flag ds self :
  dbw_enabled self = false ->
  keeps_released ds ->
  dbw_enabled (deliver_all ds self) = false.
Proof.
  intros Hoff Hkeep. revert self Hoff.
  induction Hkeep as [|d ds Hd _ IH]; intros self Hoff; [exact Hoff|].
  rewrite deliver_all_cons. apply IH. by destruct d.
Qed.

Lemma released_iteration t self :
  dbw_enabled self = false ->
  keeps_released (before t) ->
  keeps_released (during t) ->
  publishes (run_effects (iteration t) self) = []
  /\ kw_dbw_enabled (tick_args t self) = false
  /\ dbw_enabled (run_state (iteration t) self) = false.
Proof.
  intros Hoff Hb Hd.
  assert (Hhead : dbw_enabled (at_head t self) = false)
    by (by apply keeps_released_flag).
  assert (Hgate : dbw_enabled (at_gate t self) = false)
    by (unfold at_gate; by apply keeps_released_flag).
  split; [|split; [exact Hhead|]].
  - unfold run_effects.
    destruct ((tick_outcome t self).2) as [cmd|e] eqn:Hout.
    + by rewrite (iteration_disengaged _ _ _ Hout Hgate).
    + by rewrite (iteration_raised _ _ _ Hout).
  - unfold run_state.
    destruct ((tick_outcome t self).2) as [cmd|e] eqn:Hout.
    + by rewrite (iteration_disengaged _ _ _ Hout Hgate).
    + by rewrite (iteration_raised _ _ _ Hout).
Qed.

(** ** Parameters set on the server *)

(** X9: a value set on the parameter server under the name of one of the
    ten forwarded parameters, of whatever type, is the keyword argument
    the Controller constructor receives for it, and the other keyword
    arguments are not affected. *)
Theorem parameter_on_server_reaches_controller
    (server : gmap string param_value) k d var v :
  (k, d, var) ∈ parameter_table ->
  k <> "fuel_capacity" ->
  controller_args (<["~" +:+ k := v]> server)
  = <[k := v]> (controller_args server).
Proof.
  intros Hin Hne. unfold parameter_table in Hin.
  repeat (apply elem_of_cons in Hin as [Hin|Hin];
          [injection Hin as -> -> ->;
           try done;
           unfold controller_args, controller_args_of, read_parameters,
             get_param; simpl;
           rewrite lookup_insert_eq, !lookup_insert_ne by done;
           apply map_eq; intros i;
           rewrite !lookup_insert;
           repeat case_decide; congruence|]).
  by apply elem_of_nil in Hin.
Qed.

End MoreProperties.

(** * The node store by store *)

Section Stores.
Context {E : Collaborators}.
Implicit Types (self : DBWNode E) (sts : list store).

(** ** Stores *)

Lemma perform_all_app sts1 sts2 self :
  perform_all (sts1 ++ sts2) self = perform_all sts2 (perform_all sts1 self).
Proof. unfold perform_all. apply foldl_app. Qed.

Lemma perform_all_cons st sts self :
  perform_all (st :: sts) self = perform_all sts (perform st self).
Proof. reflexivity. Qed.

Lemma perform_all_snoc sts st self :
  perform_all (sts ++ [st]) self = perform st (perform_all sts self).
Proof. by rewrite perform_all_app. Qed.

(** A callback is the run of its stores. *)
Lemma deliver_stores d self : deliver d self = perform_all (stores_of d) self.
Proof. by destruct d. Qed.

Lemma deliver_all_stores ds self :
  deliver_all ds self = perform_all (flat_map stores_of ds) self.
Proof.
  revert self. induction ds as [|d ds IH]; intros self; [reflexivity|].
  rewrite deliver_all_cons, IH. simpl.
  by rewrite perform_all_app, deliver_stores.
Qed.

(** What every store preserves is preserved by a run of stores. *)
Lemma perform_all_preserves {A : Type} (f : DBWNode E -> A) :
  (forall st self, f (perform st self) = f self) ->
  forall sts self, f (perform_all sts self) = f self.
Proof.
  intros Hst sts. induction sts as [|st sts IH]; intros self; [reflexivity|].
  rewrite perform_all_cons, IH. apply Hst.
Qed.

Lemma perform_all_last_timestamp sts self :
  last_timestamp (perform_all sts self) = last_timestamp self.
Proof. apply (perform_all_preserves last_timestamp). by intros []. Qed.

Lemma perform_all_controller sts self :
  controller (perform_all sts self) = controller self.
Proof. apply (perform_all_preserves controller). by intros []. Qed.

Lemma perform_all_count sts self :
  count (perform_all sts self) = count self.
Proof. apply (perform_all_preserves count). by intros []. Qed.

(** An assignment of the loop thread commutes with a run of stores. *)
Lemma perform_all_commutes (g : DBWNode E -> DBWNode E) :
  (forall st self, perform st (g self) = g (perform st self)) ->
  forall sts self, perform_all sts (g self) = g (perform_all sts self).
Proof.
  intros Hst sts. induction sts as [|st sts IH]; intros self; [reflexivity|].
  by rewrite !perform_all_cons, Hst, IH.
Qed.

Lemma perform_all_set_last_timestamp v sts self :
  perform_all sts (set_last_timestamp v self)
  = set_last_timestamp v (perform_all sts self).
Proof. apply (perform_all_commutes (set_last_timestamp v)). by intros []. Qed.

Lemma perform_all_set_controller c sts self :
  perform_all sts (set_controller c self)
  = set_controller c (perform_all sts self).
Proof. apply (perform_all_commutes (set_controller c)). by intros []. Qed.

(** ** The fine iteration in closed form *)

Lemma control_eq a self :
  control a self =
    ((Controller_control (controller self) a).2,
     set_controller (Controller_control (controller self) a).1 self,
     [control_call a]).
Proof.
  unfold control. by destruct (Controller_control (controller self) a).
Qed.

Lemma fine_loop_head_eq t self :
  fine_loop_head t self =
    ((fine_outcome t self).2,
     set_controller (fine_outcome t self).1
       (set_last_timestamp (fine_clock t) (perform_all (upto_114 t) self)),
     [control_call (fine_args t self)]).
Proof.
  unfold fine_outcome, fine_args, upto_114, upto_113, upto_112, upto_111,
    upto_110, upto_109, upto_108.
  unfold fine_loop_head, getattr, setattr, mbind, M_bind.
  cbn -[control perform_all].
  rewrite control_eq.
  rewrite !perform_all_app, !perform_all_set_last_timestamp.
  cbn -[perform_all].
  by rewrite !perform_all_controller, !perform_all_last_timestamp.
Qed.

Lemma fine_iteration_eq t self :
  fine_iteration t self =
    match (fine_outcome t self).2 with
    | Return cmd =>
        match loop_tail cmd (fine_at_gate t self) with
        | (r, self1, es) => (r, self1, control_call (fine_args t self) :: es)
        end
    | Raise e =>
        (Raise e,
         set_controller (fine_outcome t self).1
           (set_last_timestamp (fine_clock t)
              (perform_all (upto_114 t) self)),
         [control_call (fine_args t self)])
    end.
Proof.
  unfold fine_iteration.
  unfold mbind at 1, M_bind at 1. rewrite fine_loop_head_eq.
  destruct ((fine_outcome t self).2) as [cmd|e]; [|reflexivity].
  unfold setattr, mbind, M_bind. cbn -[perform_all loop_tail].
  rewrite perform_all_set_controller, perform_all_set_last_timestamp.
  rewrite <- perform_all_app. fold (upto_125 t). fold (fine_at_gate t self).
  by destruct (loop_tail cmd (fine_at_gate t self)) as [[r self1] es].
Qed.

Lemma fine_iteration_control_calls t self :
  control_calls (run_effects (fine_iteration t) self) = [fine_args t self].
Proof.
  unfold run_effects. rewrite fine_iteration_eq.
  destruct ((fine_outcome t self).2) as [cmd|e]; [|reflexivity].
  destruct (dbw_enabled (fine_at_gate t self)) eqn:Hflag.
  - destruct cmd as [[throttle brake] angle].
    rewrite loop_tail_enabled by assumption.
    unfold publish, Publisher_publish, getattr, setattr, mbind, M_bind.
    simpl.
    by repeat (destruct (publish_raises _ _); simpl).
  - by rewrite loop_tail_disabled by assumption.
Qed.

Lemma fine_iteration_engaged t self cmd :
  (fine_outcome t self).2 = Return cmd ->
  dbw_enabled (fine_at_gate t self) = true ->
  (forall pm, pm ∈ commands cmd -> publish_raises pm.1 pm.2 = false) ->
  fine_iteration t self =
    (Return tt,
     set_count (count self + 1) (fine_at_gate t self),
     control_call (fine_args t self)
       :: map (fun pm => published pm.1 pm.2) (commands cmd)
       ++ [slept rate_hz]).
Proof.
  intros Hout Hon Hok. destruct cmd as [[throttle brake] steer].
  rewrite fine_iteration_eq, Hout, (loop_tail_enabled _ _ _ _ Hon).
  rewrite (publish_accepted _ _ _ _ Hok).
  unfold fine_at_gate at 2. simpl. by rewrite perform_all_count.
Qed.

(** The ticks of the coarse schedules are the fine ticks without a store
    between the loads. *)
Lemma refine_args t self : fine_args (refine t) self = tick_args t self.
Proof.
  unfold fine_args, tick_args, read_control_args, at_head, upto_114,
    upto_113, upto_112, upto_111, upto_110, upto_109, upto_108. simpl.
  rewrite !app_nil_r, <- deliver_all_stores.
  by rewrite (deliver_all_preserves last_timestamp deliver_last_timestamp).
Qed.

Lemma deliver_all_controller_kept ds self :
  controller (deliver_all ds self) = controller self.
Proof. by rewrite deliver_all_stores, perform_all_controller. Qed.

Lemma refine_iteration t self : fine_iteration (refine t) self = iteration t self.
Proof.
  rewrite fine_iteration_eq, iteration_eq.
  assert (Hout : fine_outcome (refine t) self = tick_outcome t self).
  { unfold fine_outcome, tick_outcome, at_head.
    by rewrite refine_args, deliver_all_controller_kept. }
  assert (Hhead : perform_all (upto_114 (refine t)) self = at_head t self).
  { unfold upto_114, upto_113, upto_112, upto_111, upto_110, upto_109,
      upto_108, at_head. simpl.
    by rewrite !app_nil_r, deliver_all_stores. }
  assert (Hgate : fine_at_gate (refine t) self = at_gate t self).
  { unfold fine_at_gate, at_gate, upto_125. rewrite perform_all_app, Hhead.
    rewrite Hout. simpl. rewrite deliver_all_stores.
    by rewrite perform_all_set_controller, perform_all_set_last_timestamp. }
  by rewrite Hout, Hhead, Hgate, refine_args.
Qed.

Lemma refine_loop schedule self :
  fine_loop (map refine schedule) self = loop schedule self.
Proof.
  revert self. induction schedule as [|t rest IH]; intros self; [reflexivity|].
  rewrite loop_cons. simpl. unfold mbind, M_bind.
  rewrite refine_iteration.
  destruct (iteration t self) as [[[u|e] self1] es1]; [|reflexivity].
  by rewrite IH.
Qed.

(** ** The last store before a load *)

Lemma last_store_snoc a sts st :
  last_store a (sts ++ [st])
  = if attribute_eqb (attribute_of st) a then Some st else last_store a sts.
Proof.
  unfold last_store, stores_to. rewrite List.filter_app. simpl.
  destruct (attribute_eqb (attribute_of st) a);
    [apply last_snoc|by rewrite app_nil_r].
Qed.

(** An attribute is, after a run of stores, what the last store to it
    made it. *)
Lemma attribute_last_store {A : Type} (f : DBWNode E -> A) a :
  (forall st s1 s2, attribute_eqb (attribute_of st) a = true ->
                    f (perform st s1) = f (perform st s2)) ->
  (forall st s, attribute_eqb (attribute_of st) a = false ->
                f (perform st s) = f s) ->
  forall sts self,
    f (perform_all sts self) = f (after_last_store a sts self).
Proof.
  intros Hown Hframe sts self. unfold after_last_store.
  induction sts as [|st sts IH] using rev_ind; [reflexivity|].
  rewrite perform_all_snoc, last_store_snoc.
  destruct (attribute_eqb (attribute_of st) a) eqn:Hst.
  - by apply Hown.
  - rewrite Hframe by assumption. exact IH.
Qed.

(** Rewrites [f (perform_all sts s)] for the attribute [f], named [a]. *)
Ltac last_store_of f a :=
  rewrite !(attribute_last_store f a
              ltac:(intros [] ? ?; try reflexivity; discriminate)
              ltac:(intros [] ?; try reflexivity; discriminate)).

Lemma fine_args_last_stores t self :
  kw_target_vel (fine_args t self)
  = target_vel (after_last_store target_vel_attr (upto_108 t) self)
  /\ kw_curr_vel (fine_args t self)
     = curr_vel (after_last_store curr_vel_attr (upto_109 t) self)
  /\ kw_target_ang_vel (fine_args t self)
     = target_ang_vel
         (after_last_store target_ang_vel_attr (upto_110 t) self)
  /\ kw_curr_ang_vel (fine_args t self)
     = curr_ang_vel (after_last_store curr_ang_vel_attr (upto_111 t) self)
  /\ kw_dbw_enabled (fine_args t self)
     = dbw_enabled (after_last_store dbw_enabled_attr (upto_112 t) self)
  /\ kw_curr_angle (fine_args t self)
     = curr_angle (after_last_store curr_angle_attr (upto_113 t) self)
  /\ kw_cte (fine_args t self)
     = cte (after_last_store cte_attr (upto_114 t) self).
Proof.
  unfold fine_args. simpl.
  split; [by last_store_of target_vel target_vel_attr|].
  split; [by last_store_of curr_vel curr_vel_attr|].
  split; [by last_store_of target_ang_vel target_ang_vel_attr|].
  split; [by last_store_of curr_ang_vel curr_ang_vel_attr|].
  split; [by last_store_of dbw_enabled dbw_enabled_attr|].
  split; [by last_store_of curr_angle curr_angle_attr|].
  by last_store_of cte cte_attr.
Qed.

Lemma stores_to_app a sts1 sts2 :
  stores_to a (sts1 ++ sts2) = stores_to a sts1 ++ stores_to a sts2.
Proof. apply List.filter_app. Qed.

Lemma last_store_after a sts1 st sts2 :
  attribute_eqb (attribute_of st) a = true ->
  stores_to a sts2 = [] ->
  last_store a (sts1 ++ st :: sts2) = Some st.
Proof.
  intros Hst Hnone. unfold last_store.
  rewrite stores_to_app. simpl. rewrite Hst.
  change (stores_to a sts1
            ++ st :: List.filter (fun st0 => attribute_eqb (attribute_of st0) a)
                       sts2)
    with (stores_to a sts1 ++ st :: stores_to a sts2).
  rewrite Hnone. apply last_snoc.
Qed.

Lemma stores_to_app_nil a sts1 sts2 :
  stores_to a (sts1 ++ sts2) = [] ->
  stores_to a sts1 = [] /\ stores_to a sts2 = [].
Proof. rewrite stores_to_app. apply app_eq_nil. Qed.

(** What [untouched d] says of each part of the stores that follow the
    callback of [d] up to the load of line 114. *)
Lemma untouched_parts d st s2 s109 s110 s111 s112 s113 s114 :
  untouched d (s2 ++ s109 ++ s110 ++ s111 ++ s112 ++ s113 ++ s114) ->
  st ∈ stores_of d ->
  stores_to (attribute_of st) s2 = []
  /\ stores_to (attribute_of st) (s2 ++ s109) = []
  /\ stores_to (attribute_of st) (s2 ++ s109 ++ s110) = []
  /\ stores_to (attribute_of st) (s2 ++ s109 ++ s110 ++ s111) = []
  /\ stores_to (attribute_of st) (s2 ++ s109 ++ s110 ++ s111 ++ s112) = []
  /\ stores_to (attribute_of st)
       (s2 ++ s109 ++ s110 ++ s111 ++ s112 ++ s113) = []
  /\ stores_to (attribute_of st)
       (s2 ++ s109 ++ s110 ++ s111 ++ s112 ++ s113 ++ s114) = [].
Proof.
  intros Hun Hin. specialize (Hun st Hin).
  rewrite !stores_to_app in *.
  repeat (apply app_eq_nil in Hun as [? Hun]).
  repeat match goal with H : stores_to _ _ = [] |- _ => rewrite H end.
  by repeat split.
Qed.

(** The last store to [a] in a list that ends with the stores of one
    callback followed by stores to other attributes. *)
Lemma last_store_of_callback a sts1 pre st post rest :
  attribute_eqb (attribute_of st) a = true ->
  stores_to a post = [] ->
  stores_to a rest = [] ->
  last_store a ((sts1 ++ (pre ++ st :: post)) ++ rest) = Some st.
Proof.
  intros Hst Hpost Hrest.
  replace ((sts1 ++ (pre ++ st :: post)) ++ rest)
    with ((sts1 ++ pre) ++ st :: (post ++ rest))
    by (by rewrite <- !app_assoc).
  apply last_store_after; [exact Hst|].
  by rewrite stores_to_app, Hpost, Hrest.
Qed.

(** Rewrites the [last_store] of the goal with the fact [Hl], stated
    up to the unfolding of [stores_of] and [attribute_of]. *)
Ltac use_last Hl :=
  let Hl' := fresh "Hl" in
  pose proof Hl as Hl';
  rewrite ?app_nil_r in Hl';
  match goal with
  | |- context [last_store ?a ?l] =>
      let H := fresh in
      assert (H : last_store a l = _) by exact Hl';
      rewrite H
  end.

Lemma reflected_when_untouched t self sts1 d sts2 :
  before_108 t = sts1 ++ stores_of d ++ sts2 ->
  untouched d (sts2 ++ before_109 t ++ before_110 t ++ before_111 t
                 ++ before_112 t ++ before_113 t ++ before_114 t) ->
  reflects d (fine_args t self).
Proof.
  intros Hb Hun.
  destruct (fine_args_last_stores t self)
    as (Htv & Hcv & Htav & Hcav & Hen & Hca & Hcte).
  unfold after_last_store, upto_114, upto_113, upto_112, upto_111,
    upto_110, upto_109, upto_108 in *.
  rewrite Hb in *. rewrite <- !app_assoc in *.
  assert (Hlast : forall pre st post rest,
            stores_of d = pre ++ st :: post ->
            stores_to (attribute_of st) post = [] ->
            stores_to (attribute_of st) (sts2 ++ rest) = [] ->
            last_store (attribute_of st)
              (sts1 ++ stores_of d ++ sts2 ++ rest) = Some st).
  { intros pre st post rest -> Hpost Hrest.
    replace (sts1 ++ (pre ++ st :: post) ++ sts2 ++ rest)
      with ((sts1 ++ (pre ++ st :: post)) ++ (sts2 ++ rest))
      by (by rewrite <- !app_assoc).
    apply last_store_of_callback; [by destruct st|exact Hpost|exact Hrest]. }
  destruct d as [msg|msg|msg|msg|msg|msg|msg]; unfold reflects;
    try exact I.
  - destruct (untouched_parts _ (store_target_vel _) _ _ _ _ _ _ _ Hun
                ltac:(repeat constructor))
      as (H1 & _).
    destruct (untouched_parts _ (store_target_ang_vel _) _ _ _ _ _ _ _ Hun
                ltac:(repeat constructor))
      as (_ & _ & H3 & _).
    rewrite <- (app_nil_r sts2) in H1.
    split.
    + rewrite Htv.
      by use_last (Hlast [] (store_target_vel _) [_] [] eq_refl eq_refl H1).
    + rewrite Htav.
      by use_last
           (Hlast [_] (store_target_ang_vel _) [] _ eq_refl eq_refl H3).
  - destruct (untouched_parts _ (store_curr_vel _) _ _ _ _ _ _ _ Hun
                ltac:(repeat constructor))
      as (_ & H2 & _).
    destruct (untouched_parts _ (store_curr_ang_vel _) _ _ _ _ _ _ _ Hun
                ltac:(repeat constructor))
      as (_ & _ & _ & H4 & _).
    split.
    + rewrite Hcv.
      by use_last (Hlast [] (store_curr_vel _) [_] _ eq_refl eq_refl H2).
    + rewrite Hcav.
      by use_last (Hlast [_] (store_curr_ang_vel _) [] _ eq_refl eq_refl H4).
  - destruct (untouched_parts _ (store_dbw_enabled _) _ _ _ _ _ _ _ Hun
                ltac:(repeat constructor))
      as (_ & _ & _ & _ & H5 & _).
    rewrite Hen.
    by use_last (Hlast [] (store_dbw_enabled _) [] _ eq_refl eq_refl H5).
  - destruct (untouched_parts _ (store_curr_angle _) _ _ _ _ _ _ _ Hun
                ltac:(repeat constructor))
      as (_ & _ & _ & _ & _ & H6 & _).
    rewrite Hca.
    by use_last (Hlast [] (store_curr_angle _) [] _ eq_refl eq_refl H6).
  - destruct (untouched_parts _ (store_cte _) _ _ _ _ _ _ _ Hun
                ltac:(repeat constructor))
      as (_ & _ & _ & _ & _ & _ & H7).
    rewrite Hcte.
    by use_last (Hlast [] (store_cte _) [] _ eq_refl eq_refl H7).
Qed.

(** ** Updates and the arguments of the next call *)

(** C8, as the code has it: each value given to the Controller is its
    attribute as the last store before its own load (lines 108-114) left
    it, so a store that follows the load is not in the call of that
    iteration.  An update whose callback completed before the iteration
    began is what the Controller is given for its topic when no other
    store to the same attributes precedes their loads; the loads are
    separate, so nothing ties the two values of a twist or velocity
    message together otherwise.  When the override flag is stored true
    before the iteration begins and not stored again before line 125, that
    iteration publishes the three commands of the Controller's answer. *)
Theorem update_reaches_the_next_loads t self :
  control_calls (run_effects (fine_iteration t) self) = [fine_args t self]
  /\ (kw_target_vel (fine_args t self)
      = target_vel (after_last_store target_vel_attr (upto_108 t) self)
      /\ kw_curr_vel (fine_args t self)
         = curr_vel (after_last_store curr_vel_attr (upto_109 t) self)
      /\ kw_target_ang_vel (fine_args t self)
         = target_ang_vel
             (after_last_store target_ang_vel_attr (upto_110 t) self)
      /\ kw_curr_ang_vel (fine_args t self)
         = curr_ang_vel
             (after_last_store curr_ang_vel_attr (upto_111 t) self)
      /\ kw_dbw_enabled (fine_args t self)
         = dbw_enabled (after_last_store dbw_enabled_attr (upto_112 t) self)
      /\ kw_curr_angle (fine_args t self)
         = curr_angle (after_last_store curr_angle_attr (upto_113 t) self)
      /\ kw_cte (fine_args t self)
         = cte (after_last_store cte_attr (upto_114 t) self))
  /\ (forall sts,
        control_calls (run_effects (fine_iteration (with_before_125 sts t))
                         self)
        = control_calls (run_effects (fine_iteration t) self))
  /\ (forall sts1 d sts2,
        before_108 t = sts1 ++ stores_of d ++ sts2 ->
        untouched d (sts2 ++ before_109 t ++ before_110 t ++ before_111 t
                       ++ before_112 t ++ before_113 t ++ before_114 t) ->
        reflects d (fine_args t self))
  /\ (forall sts1 sts2 cmd,
        before_108 t = sts1 ++ store_dbw_enabled true :: sts2 ->
        stores_to dbw_enabled_attr
          (sts2 ++ before_109 t ++ before_110 t ++ before_111 t
             ++ before_112 t ++ before_113 t ++ before_114 t
             ++ before_125 t) = [] ->
        (fine_outcome t self).2 = Return cmd ->
        (forall pm, pm ∈ commands cmd -> publish_raises pm.1 pm.2 = false) ->
        kw_dbw_enabled (fine_args t self) = true
        /\ publishes (run_effects (fine_iteration t) self) = commands cmd).
Proof.
  split; [apply fine_iteration_control_calls|].
  split; [apply fine_args_last_stores|].
  split; [intros sts; by rewrite !fine_iteration_control_calls|].
  split; [intros sts1 d sts2; apply reflected_when_untouched|].
  intros sts1 sts2 cmd Hb Hnone Hout Hok.
  assert (Hflag : forall rest,
            stores_to dbw_enabled_attr (sts2 ++ rest) = [] ->
            dbw_enabled (perform_all ((sts1 ++ store_dbw_enabled true :: sts2)
                                        ++ rest) self) = true).
  { intros rest Hrest. last_store_of dbw_enabled dbw_enabled_attr.
    unfold after_last_store. rewrite <- app_assoc.
    change ((store_dbw_enabled true :: sts2) ++ rest)
      with (store_dbw_enabled true :: (sts2 ++ rest)).
    by rewrite (last_store_after dbw_enabled_attr sts1
                  (store_dbw_enabled true) _ eq_refl Hrest). }
  rewrite !stores_to_app in Hnone.
  repeat (apply app_eq_nil in Hnone as [? Hnone]).
  assert (Harg : kw_dbw_enabled (fine_args t self) = true).
  { unfold fine_args, upto_112, upto_111, upto_110, upto_109, upto_108.
    simpl. rewrite Hb, <- !app_assoc.
    rewrite (app_assoc sts1). apply Hflag.
    rewrite !stores_to_app.
    by repeat match goal with H : stores_to _ _ = [] |- _ => rewrite H end. }
  split; [exact Harg|].
  assert (Hgate : dbw_enabled (fine_at_gate t self) = true).
  { unfold fine_at_gate, upto_125, upto_114, upto_113, upto_112, upto_111,
      upto_110, upto_109, upto_108.
    simpl. rewrite Hb, <- !app_assoc.
    rewrite (app_assoc sts1). apply Hflag.
    rewrite !stores_to_app.
    by repeat match goal with H : stores_to _ _ = [] |- _ => rewrite H end. }
  unfold run_effects. rewrite (fine_iteration_engaged _ _ _ Hout Hgate Hok).
  simpl. by rewrite publishes_app, publishes_published, app_nil_r.
Qed.

(** ** The whole history of stores *)

Lemma callback_view_perform st self1 self2 :
  callback_view self1 = callback_view self2 ->
  callback_view (perform st self1) = callback_view (perform st self2).
Proof.
  unfold callback_view, read_control_args. intros Hview.
  injection Hview as Htv Hcv Htav Hcav Hen Hca Hcte Hpose Hattr.
  destruct st; simpl; congruence.
Qed.

Lemma callback_view_perform_all sts self1 self2 :
  callback_view self1 = callback_view self2 ->
  callback_view (perform_all sts self1) = callback_view (perform_all sts self2).
Proof.
  revert self1 self2. induction sts as [|st sts IH]; intros s1 s2 Hview.
  { exact Hview. }
  rewrite !perform_all_cons. by apply IH, callback_view_perform.
Qed.

Lemma fine_iteration_view t self1 self2 :
  callback_view self1 = callback_view self2 ->
  run_result (fine_iteration t) self1 = Return tt ->
  callback_view (run_state (fine_iteration t) self1)
  = callback_view (perform_all (upto_125 t) self2).
Proof.
  intros Hview Hret. unfold run_result, run_state in *.
  rewrite fine_iteration_eq in *.
  destruct ((fine_outcome t self1).2) as [cmd|e]; [|discriminate].
  destruct (loop_tail_state cmd (fine_at_gate t self1)) as [n Hn].
  unfold run_state in Hn.
  destruct (loop_tail cmd (fine_at_gate t self1)) as [[r s1] es].
  simpl in *. subst s1.
  change (callback_view (perform_all (upto_125 t) self1)
          = callback_view (perform_all (upto_125 t) self2)).
  by apply callback_view_perform_all.
Qed.

Lemma fine_loop_cons t rest self :
  fine_loop (t :: rest) self =
    match fine_iteration t self with
    | (Return _, self1, es1) =>
        match fine_loop rest self1 with
        | (r, self2, es2) => (r, self2, es1 ++ es2)
        end
    | (Raise e, self1, es1) => (Raise e, self1, es1)
    end.
Proof. reflexivity. Qed.

Lemma fine_loop_view schedule self1 self2 :
  callback_view self1 = callback_view self2 ->
  run_result (fine_loop schedule) self1 = Return tt ->
  callback_view (run_state (fine_loop schedule) self1)
  = callback_view (perform_all (all_stores schedule) self2).
Proof.
  revert self1 self2.
  induction schedule as [|t rest IH]; intros s1 s2 Hview Hret.
  { exact Hview. }
  pose proof (fine_iteration_view t s1 s2 Hview) as Hit.
  unfold run_result, run_state in *. rewrite fine_loop_cons in *.
  destruct (fine_iteration t s1) as [[[[]|e] s1'] es1]; [|discriminate].
  specialize (Hit eq_refl). simpl in Hit.
  specialize (IH s1' (perform_all (upto_125 t) s2) Hit).
  destruct (fine_loop rest s1') as [[r s1''] es2]. simpl in *.
  change (all_stores (t :: rest)) with (upto_125 t ++ all_stores rest).
  rewrite perform_all_app. by apply IH.
Qed.

(** X12: after a run that returned, each of the seven values the next
    Controller call is given is what the last store to its attribute
    made it, among all the stores of the run and the stores of the
    iteration that precede the load of that attribute, and the value of
    the start when there is none: an attribute no callback stores to
    keeps its value. *)
Theorem arguments_are_last_stores schedule t self :
  run_result (fine_loop schedule) self = Return tt ->
  let history := all_stores schedule in
  let a := fine_args t (run_state (fine_loop schedule) self) in
  control_calls
    (run_effects (fine_iteration t) (run_state (fine_loop schedule) self))
  = [a]
  /\ kw_target_vel a
     = target_vel
         (after_last_store target_vel_attr (history ++ upto_108 t) self)
  /\ kw_curr_vel a
     = curr_vel (after_last_store curr_vel_attr (history ++ upto_109 t) self)
  /\ kw_target_ang_vel a
     = target_ang_vel
         (after_last_store target_ang_vel_attr (history ++ upto_110 t) self)
  /\ kw_curr_ang_vel a
     = curr_ang_vel
         (after_last_store curr_ang_vel_attr (history ++ upto_111 t) self)
  /\ kw_dbw_enabled a
     = dbw_enabled
         (after_last_store dbw_enabled_attr (history ++ upto_112 t) self)
  /\ kw_curr_angle a
     = curr_angle
         (after_last_store curr_angle_attr (history ++ upto_113 t) self)
  /\ kw_cte a = cte (after_last_store cte_attr (history ++ upto_114 t) self).
Proof.
  intros Hret history a.
  split; [apply fine_iteration_control_calls|].
  assert (Hview : forall sts,
            callback_view
              (perform_all sts (run_state (fine_loop schedule) self))
            = callback_view (perform_all (history ++ sts) self)).
  { intros sts. rewrite perform_all_app.
    apply callback_view_perform_all. by apply fine_loop_view. }
  unfold a, fine_args. simpl.
  pose proof (Hview (upto_108 t)) as H108.
  pose proof (Hview (upto_109 t)) as H109.
  pose proof (Hview (upto_110 t)) as H110.
  pose proof (Hview (upto_111 t)) as H111.
  pose proof (Hview (upto_112 t)) as H112.
  pose proof (Hview (upto_113 t)) as H113.
  pose proof (Hview (upto_114 t)) as H114.
  unfold callback_view, read_control_args in *.
  injection H108 as -> _ _ _ _ _ _ _ _.
  injection H109 as _ -> _ _ _ _ _ _ _.
  injection H110 as _ _ -> _ _ _ _ _ _.
  injection H111 as _ _ _ -> _ _ _ _ _.
  injection H112 as _ _ _ _ -> _ _ _ _.
  injection H113 as _ _ _ _ _ -> _ _ _.
  injection H114 as _ _ _ _ _ _ -> _ _.
  split; [by last_store_of target_vel target_vel_attr|].
  split; [by last_store_of curr_vel curr_vel_attr|].
  split; [by last_store_of target_ang_vel target_ang_vel_attr|].
  split; [by last_store_of curr_ang_vel curr_ang_vel_attr|].
  split; [by last_store_of dbw_enabled dbw_enabled_attr|].
  split; [by last_store_of curr_angle curr_angle_attr|].
  by last_store_of cte cte_attr.
Qed.

End Stores.

(** * The node that hears nothing, the released node and the waypoints *)

Section Revisited.
Context {E : Collaborators}.
Implicit Types (self : DBWNode E) (t : tick) (ds : list delivery).

(** ** A node that hears nothing: what it publishes *)

Lemma loop_quiet_commands schedule self :
  Forall quiet schedule ->
  dbw_enabled self = true ->
  (forall c a, exists cmd, (Controller_control c a).2 = Return cmd) ->
  (forall p m, publish_raises p m = false) ->
  control_calls (run_effects (loop schedule) self)
  = map (fun e => read_control_args e self)
      (elapsed_values (last_timestamp self) (map clock schedule))
  /\ publishes (run_effects (loop schedule) self)
     = flat_map commands
         (returned_commands (controller self)
            (control_calls (run_effects (loop schedule) self))).
Proof.
  intros Hquiet Hon Htotal Hok. revert self Hon.
  induction Hquiet as [|t rest Ht _ IH]; intros self Hon; [done|].
  destruct (Htotal (controller self) (tick_args t self)) as [cmd Hcmd].
  assert (Hhead : at_head t self = self)
    by (destruct Ht as [Hb _]; unfold at_head; by rewrite Hb).
  assert (Hout : (tick_outcome t self).2 = Return cmd)
    by (unfold tick_outcome; by rewrite Hhead).
  assert (Hgate : dbw_enabled (at_gate t self) = true).
  { destruct Ht as [Hb Hd]. unfold at_gate, at_head. by rewrite Hb, Hd. }
  pose proof (iteration_engaged t self cmd Hout Hgate
                (fun pm _ => Hok pm.1 pm.2)) as Hit.
  assert (Hret : run_result (iteration t) self = Return tt)
    by (unfold run_result; by rewrite Hit).
  assert (Hpub : publishes (run_effects (iteration t) self) = commands cmd).
  { unfold run_effects. rewrite Hit. simpl.
    by rewrite publishes_app, publishes_published, app_nil_r. }
  assert (Hargs : forall e, read_control_args e (run_state (iteration t) self)
                            = read_control_args e self)
    by (intros e; by apply iteration_quiet_args).
  destruct (IH (run_state (iteration t) self)) as [Hcalls Hpubs].
  { pose proof (Hargs 0%float) as Hflag.
    apply (f_equal kw_dbw_enabled) in Hflag. simpl in Hflag.
    by rewrite Hflag. }
  rewrite iteration_last_timestamp, iteration_controller in *.
  rewrite (loop_cons_return_effects _ _ _ Hret).
  rewrite control_calls_app, publishes_app, iteration_control_calls.
  rewrite Hpub, Hpubs, Hcalls. simpl.
  rewrite (tick_args_quiet _ _ Ht).
  split.
  - f_equal. apply map_ext. intros e. apply Hargs.
  - rewrite (tick_args_quiet _ _ Ht) in Hcmd.
    destruct (Controller_control (controller self) _) as [c1 r].
    simpl in Hcmd. by subst r.
Qed.

(** C7: in a run in which no callback ever runs, every Controller call
    has the two targets, the two current velocities, the steering angle
    and the cross-track error equal to [0.0] and the flag true.  When the
    Controller returns at every call and the transport takes every
    message, every iteration calls it, with the successive differences of
    the clock readings as elapsed times, and publishes the three commands
    built from what that call returned: the throttle command with the
    returned throttle, the steering command with the returned angle, the
    brake command with the returned brake. *)
Theorem silent_inputs_give_startup_arguments
    (server : gmap string param_value) (t0 : float) schedule :
  Forall quiet schedule ->
  (forall a, a ∈ control_calls (DBWNode_init server t0 schedule).2 ->
             startup_args a)
  /\ ((forall c a, exists cmd, (Controller_control c a).2 = Return cmd) ->
      (forall p m, publish_raises p m = false) ->
      (DBWNode_init server t0 schedule).1.1 = Return tt
      /\ length (control_calls (DBWNode_init server t0 schedule).2)
         = length schedule
      /\ control_calls (DBWNode_init server t0 schedule).2
         = map (fun e => read_control_args e (new_DBWNode server t0))
             (elapsed_values t0 (map clock schedule))
      /\ publishes (DBWNode_init server t0 schedule).2
         = flat_map commands
             (returned_commands (Controller (controller_args server))
                (control_calls (DBWNode_init server t0 schedule).2))
      /\ (publishes (DBWNode_init server t0 schedule).2).*1
         = concat (replicate (length schedule)
                     [throttle_pub; steer_pub; brake_pub])).
Proof.
  intros Hquiet. split.
  - intros a Hin.
    apply (loop_quiet_calls schedule (new_DBWNode server t0) a Hquiet)
      in Hin.
    rewrite <- Hin. by repeat split.
  - intros Htotal Hok.
    destruct (loop_quiet_engaged schedule (new_DBWNode server t0)
                Hquiet eq_refl Htotal Hok) as (Hr & Hlen & Hnames).
    destruct (loop_quiet_commands schedule (new_DBWNode server t0)
                Hquiet eq_refl Htotal Hok) as (Hcalls & Hpubs).
    by repeat split.
Qed.

(** ** A node whose override stays released: what it still does *)

Lemma released_loop schedule self :
  dbw_enabled self = false ->
  Forall (fun t => keeps_released (before t) /\ keeps_released (during t))
    schedule ->
  publishes (run_effects (loop schedule) self) = []
  /\ count (run_state (loop schedule) self) = count self
  /\ Forall (fun a => kw_dbw_enabled a = false)
       (control_calls (run_effects (loop schedule) self))
  /\ dbw_enabled (run_state (loop schedule) self) = false
  /\ (run_result (loop schedule) self = Return tt ->
      run_effects (loop schedule) self
      = flat_map (fun a => [control_call a; slept rate_hz])
          (control_calls (run_effects (loop schedule) self))).
Proof.
  intros Hoff Hkeep. revert self Hoff.
  induction Hkeep as [|t rest [Hb Hd] _ IH]; intros self Hoff.
  { by repeat split. }
  destruct (released_iteration t self Hoff Hb Hd) as (Hnone & Harg & Hafter).
  assert (Hgate : dbw_enabled (at_gate t self) = false).
  { unfold at_gate. apply keeps_released_flag; [|exact Hd].
    by apply keeps_released_flag. }
  assert (Hcount : count (run_state (iteration t) self) = count self).
  { rewrite iteration_count.
    destruct ((tick_outcome t self).2); [|lia]. rewrite Hgate. lia. }
  destruct (result_unit_cases (run_result (iteration t) self))
    as [Hret|[e Hexn]].
  - destruct (IH _ Hafter) as (Hp & Hc & Ha & Hf & Hlog).
    rewrite (loop_cons_return_effects _ _ _ Hret),
      (loop_cons_return_state _ _ _ Hret),
      (loop_cons_return_result _ _ _ Hret).
    rewrite publishes_app, control_calls_app, iteration_control_calls.
    rewrite Hnone, Hp, Hc, Hcount.
    split; [done|]. split; [done|]. split; [by apply Forall_cons|].
    split; [done|].
    intros Hdone. simpl. rewrite <- (Hlog Hdone).
    assert (Hit : run_effects (iteration t) self
                  = [control_call (tick_args t self); slept rate_hz]).
    { unfold run_result, run_effects in *. rewrite iteration_eq in *.
      destruct ((tick_outcome t self).2) as [cmd|e]; [|discriminate].
      by rewrite loop_tail_disabled by assumption. }
    by rewrite Hit.
  - rewrite (loop_cons_raise_effects _ _ _ _ Hexn),
      (loop_cons_raise_state _ _ _ _ Hexn),
      (loop_cons_raise_result _ _ _ _ Hexn).
    rewrite iteration_control_calls.
    split; [done|]. split; [done|]. split; [by apply Forall_singleton|].
    split; [done|]. discriminate.
Qed.

(** X8: a node whose override flag is false, and that receives no
    message setting it to true, stays silent over the whole run: nothing
    is published, [count] does not move and the flag stays false.  The
    Controller is still called: once in every iteration entered, so at
    least once when there is an iteration and once per tick when the run
    returns, every time with [dbw_enabled] false; a run that returns
    consists of these calls, each followed by the sleep, and nothing
    else. *)
Theorem released_node_stays_silent schedule self :
  dbw_enabled self = false ->
  Forall (fun t => keeps_released (before t) /\ keeps_released (during t))
    schedule ->
  publishes (run_effects (loop schedule) self) = []
  /\ count (run_state (loop schedule) self) = count self
  /\ dbw_enabled (run_state (loop schedule) self) = false
  /\ Forall (fun a => kw_dbw_enabled a = false)
       (control_calls (run_effects (loop schedule) self))
  /\ (schedule <> [] -> control_calls (run_effects (loop schedule) self) <> [])
  /\ (run_result (loop schedule) self = Return tt ->
      length (control_calls (run_effects (loop schedule) self))
      = length schedule
      /\ run_effects (loop schedule) self
         = flat_map (fun a => [control_call a; slept rate_hz])
             (control_calls (run_effects (loop schedule) self))).
Proof.
  intros Hoff Hkeep.
  destruct (released_loop schedule self Hoff Hkeep)
    as (Hp & Hc & Ha & Hf & Hlog).
  split; [exact Hp|]. split; [exact Hc|]. split; [exact Hf|].
  split; [exact Ha|]. split.
  - destruct schedule as [|t rest]; [done|]. intros _.
    destruct (result_unit_cases (run_result (iteration t) self))
      as [Hret|[e Hexn]].
    + rewrite (loop_cons_return_effects _ _ _ Hret), control_calls_app,
        iteration_control_calls. done.
    + rewrite (loop_cons_raise_effects _ _ _ _ Hexn),
        iteration_control_calls. done.
  - intros Hret. split; [|by apply Hlog].
    clear Hp Hc Ha Hf Hlog Hoff Hkeep. revert self Hret.
    induction schedule as [|t rest IH]; intros self Hret; [done|].
    destruct (result_unit_cases (run_result (iteration t) self))
      as [Hit|[e Hexn]].
    + rewrite (loop_cons_return_result _ _ _ Hit) in Hret.
      rewrite (loop_cons_return_effects _ _ _ Hit), control_calls_app,
        iteration_control_calls. simpl. f_equal. by apply IH.
    + rewrite (loop_cons_raise_result _ _ _ _ Hexn) in Hret. discriminate.
Qed.

(** ** The waypoints *)

(** C9, as the code has it: the handler of [/final_waypoints] stores the
    waypoints under the name [final_waypoints_cb] of the instance and
    leaves [final_waypoints] as it was, so [final_waypoints] is [None] in
    every reachable instance and at the end of every run.  The subscriber
    keeps the method it was given at line 91: every message, the first
    and every later one, is handled in this same way, and after any run
    of callbacks the instance name holds the waypoints of the last
    message of the topic. *)
Theorem waypoints_overwrite_the_handler_attribute
    (server : gmap string param_value) (t0 : float) :
  (forall msg self,
     attr_final_waypoints_cb (deliver (on_final_waypoints msg) self)
     = Some (waypoints msg)
     /\ final_waypoints (deliver (on_final_waypoints msg) self)
        = final_waypoints self)
  /\ (forall self, reachable server t0 self -> final_waypoints self = None)
  /\ (forall schedule,
        final_waypoints (DBWNode_init server t0 schedule).1.2 = None)
  /\ (forall ds self,
        attr_final_waypoints_cb (deliver_all ds self) =
          match latest final_waypoints_topic ds with
          | Some (on_final_waypoints msg) => Some (waypoints msg)
          | _ => attr_final_waypoints_cb self
          end)
  /\ (forall schedule,
        (DBWNode_init server t0 schedule).1.1 = Return tt ->
        attr_final_waypoints_cb (DBWNode_init server t0 schedule).1.2 =
          match latest final_waypoints_topic (deliveries schedule) with
          | Some (on_final_waypoints msg) => Some (waypoints msg)
          | _ => None
          end).
Proof.
  assert (Hlatest : forall ds self,
            attr_final_waypoints_cb (deliver_all ds self) =
              match latest final_waypoints_topic ds with
              | Some (on_final_waypoints msg) => Some (waypoints msg)
              | _ => attr_final_waypoints_cb self
              end).
  { intros ds self.
    rewrite (attribute_latest attr_final_waypoints_cb final_waypoints_topic
               ltac:(intros [] ? ?; try reflexivity; discriminate)
               ltac:(intros [] ?; try reflexivity; discriminate)).
    destruct (latest final_waypoints_topic ds) as [d|] eqn:Hd;
      [|reflexivity].
    destruct d; try reflexivity.
    all: exfalso; unfold latest in Hd;
      apply last_Some_elem_of, list_elem_of_In, List.filter_In in Hd
        as [_ Hd]; discriminate. }
  split; [intros msg self; by split|].
  split; [intros self Hreach; by rewrite (steps_final_waypoints _ _ Hreach)|].
  split.
  { intros schedule.
    pose proof (loop_steps schedule (new_DBWNode server t0)) as Hreach.
    apply steps_final_waypoints in Hreach. exact Hreach. }
  split; [exact Hlatest|].
  intros schedule Hret.
  pose proof (callback_view_loop schedule (new_DBWNode server t0)
                (new_DBWNode server t0) eq_refl Hret) as Hview.
  apply (f_equal snd) in Hview. simpl in Hview.
  unfold DBWNode_init. unfold run_state in Hview. rewrite Hview.
  apply Hlatest.
Qed.

End Revisited.

(** * Further concrete runs *)

Lemma count_counts_entries_into_publish_witness :
  run_result (loop [idle_tick 0.02%float; overridden_tick; resumed_tick])
    echo_node = Return tt
  /\ count (run_state
              (loop [idle_tick 0.02%float; overridden_tick; resumed_tick])
              echo_node) = 2
  /\ Z.of_nat
       (length
          (publishes
             (run_effects
                (loop [idle_tick 0.02%float; overridden_tick; resumed_tick])
                echo_node)))
     = 3 * (count (run_state
                     (loop [idle_tick 0.02%float; overridden_tick;
                            resumed_tick])
                     echo_node) - count echo_node)
  /\ count (run_state (iteration (idle_tick 0.02%float)) closed_brake_node)
     = 1.
Proof.
  pose proof (count_counts_entries_into_publish
                [idle_tick 0.02%float; overridden_tick; resumed_tick]
                echo_node) as (_ & _ & _ & Hall).
  pose proof (@count_counts_entries_into_publish closed_brake []
                closed_brake_node) as (Hone & _).
  split; [reflexivity|]. split; [reflexivity|].
  split; [apply Hall; reflexivity|].
  rewrite Hone. reflexivity.
Defined.

Lemma publications_come_in_order_witness :
  run_result (loop [idle_tick 0.02%float; overridden_tick; resumed_tick])
    echo_node = Return tt
  /\ exists k,
       (publishes
          (run_effects
             (loop [idle_tick 0.02%float; overridden_tick; resumed_tick])
             echo_node)).*1
       = concat (replicate k publication_order).
Proof.
  split; [reflexivity|].
  destruct (publications_come_in_order
              [idle_tick 0.02%float; overridden_tick; resumed_tick]
              echo_node) as (k & pre & Heq & _ & _ & Hnil).
  exists k. rewrite Heq, (Hnil eq_refl). apply app_nil_r.
Defined.

Lemma last_delivery_per_topic_decides_witness :
  (forall tp,
     latest tp [ on_twist_cmd (sample_twist 1 0);
                 on_cte {| Float32_data := 0.25 |};
                 on_twist_cmd (sample_twist 5 0.5) ]
     = latest tp [ on_twist_cmd (sample_twist 5 0.5);
                   on_cte {| Float32_data := 0.25 |} ])
  /\ deliver_all [ on_twist_cmd (sample_twist 1 0);
                   on_cte {| Float32_data := 0.25 |};
                   on_twist_cmd (sample_twist 5 0.5) ] echo_node
     = deliver_all [ on_twist_cmd (sample_twist 5 0.5);
                     on_cte {| Float32_data := 0.25 |} ] echo_node.
Proof.
  assert (Hlatest : forall tp,
            latest tp [ on_twist_cmd (sample_twist 1 0);
                        on_cte {| Float32_data := 0.25 |};
                        on_twist_cmd (sample_twist 5 0.5) ]
            = latest tp [ on_twist_cmd (sample_twist 5 0.5);
                          on_cte {| Float32_data := 0.25 |} ])
    by (intros []; reflexivity).
  split; [exact Hlatest|].
  exact (last_delivery_per_topic_decides _ _ echo_node Hlatest).
Defined.

Lemma elapsed_values_of_a_run_witness :
  run_result (loop [idle_tick 0.5%float; idle_tick 1.5%float]) echo_node
  = Return tt
  /\ map kw_elapsed
       (control_calls
          (run_effects (loop [idle_tick 0.5%float; idle_tick 1.5%float])
             echo_node))
     = [0.5%float; 1%float].
Proof.
  split; [reflexivity|].
  apply (proj2 (elapsed_values_of_a_run
                  [idle_tick 0.5%float; idle_tick 1.5%float] echo_node)).
  reflexivity.
Defined.

Lemma loop_leaves_callback_attributes_witness :
  run_result (loop [resumed_tick; measured_tick]) echo_node = Return tt
  /\ callback_view (run_state (loop [resumed_tick; measured_tick]) echo_node)
     = callback_view
         (deliver_all (deliveries [resumed_tick; measured_tick]) echo_node).
Proof.
  split; [reflexivity|].
  apply (loop_leaves_callback_attributes [resumed_tick; measured_tick]
           echo_node).
  reflexivity.
Defined.

Lemma parameter_on_server_reaches_controller_witness :
  ("wheel_base", PFloat 2.8498, wheel_base) ∈ parameter_table
  /\ "wheel_base" <> "fuel_capacity"
  /\ controller_args (<["~wheel_base" := PStr "long"]> fuel_only)
     = <["wheel_base" := PStr "long"]> (controller_args fuel_only).
Proof.
  assert (Hin : ("wheel_base", PFloat 2.8498, wheel_base) ∈ parameter_table)
    by (unfold parameter_table; repeat constructor).
  assert (Hne : "wheel_base" <> "fuel_capacity") by discriminate.
  split; [exact Hin|]. split; [exact Hne|].
  exact (parameter_on_server_reaches_controller
           fuel_only _ _ _ (PStr "long") Hin Hne).
Defined.

Lemma one_call_and_one_sleep_per_tick_witness :
  run_result (loop [resumed_tick; measured_tick; released_tick]) echo_node
  = Return tt
  /\ length
       (control_calls
          (run_effects (loop [resumed_tick; measured_tick; released_tick])
             echo_node))
     = 3%nat.
Proof.
  split; [reflexivity|].
  apply (proj2 (proj2 (one_call_and_one_sleep_per_tick
                         [resumed_tick; measured_tick; released_tick]
                         echo_node))).
  reflexivity.
Defined.

(** * Concrete runs, store by store and revisited *)

Lemma silent_inputs_give_startup_arguments_witness :
  Forall quiet [idle_tick 0.5%float; idle_tick 1.5%float]
  /\ Forall startup_args
       (control_calls
          (@DBWNode_init elapsed_controller fuel_only 0%float
             [idle_tick 0.5%float; idle_tick 1.5%float]).2)
  /\ publishes
       (@DBWNode_init elapsed_controller fuel_only 0%float
          [idle_tick 0.5%float; idle_tick 1.5%float]).2
     = commands (0.5%float, 1%float, 0.25%float)
       ++ commands (1%float, 1%float, 0.25%float).
Proof.
  assert (Hquiet : Forall quiet [idle_tick 0.5%float; idle_tick 1.5%float])
    by (repeat constructor).
  pose proof (@silent_inputs_give_startup_arguments elapsed_controller
                fuel_only 0%float _ Hquiet) as [Hargs Hpub].
  split; [exact Hquiet|].
  split; [apply Forall_forall; exact Hargs|].
  destruct Hpub as (_ & _ & _ & Hcommands & _).
  - intros c a. eexists. reflexivity.
  - intros p m. reflexivity.
  - rewrite Hcommands. reflexivity.
Defined.

(** C8 as stated fails: a twist message is handled before the iteration
    begins, a second one between the loads of lines 108 and 110, and the
    Controller is given the linear velocity of the first with the angular
    velocity of the second: the update that arrived between the ticks is
    not what the next tick passes on. *)
Lemma twist_pair_torn_between_loads :
  before_108 torn_twist_tick = stores_of (on_twist_cmd (sample_twist 5 0.5))
  /\ map (fun a => (kw_target_vel a, kw_target_ang_vel a))
       (control_calls (run_effects (fine_iteration torn_twist_tick) echo_node))
     = [(5%float, 0.75%float)]
  /\ ~ reflects (on_twist_cmd (sample_twist 5 0.5))
         (fine_args torn_twist_tick echo_node)
  /\ ~ reflects (on_twist_cmd (sample_twist 7 0.75))
         (fine_args torn_twist_tick echo_node).
Proof.
  split; [reflexivity|]. split; [reflexivity|].
  split.
  - intros [_ H]. vm_compute in H.
    apply (f_equal (fun x => PrimFloat.ltb x 0.6)) in H. vm_compute in H.
    discriminate H.
  - intros [H _]. vm_compute in H.
    apply (f_equal (fun x => PrimFloat.ltb x 6)) in H. vm_compute in H.
    discriminate H.
Qed.

Lemma update_reaches_the_next_loads_witness :
  before_108 fine_resumed_tick
  = [store_dbw_enabled false]
    ++ stores_of (on_twist_cmd (sample_twist 5 0.5))
    ++ [store_dbw_enabled true]
  /\ untouched (on_twist_cmd (sample_twist 5 0.5))
       ([store_dbw_enabled true]
          ++ before_109 fine_resumed_tick ++ before_110 fine_resumed_tick
          ++ before_111 fine_resumed_tick ++ before_112 fine_resumed_tick
          ++ before_113 fine_resumed_tick ++ before_114 fine_resumed_tick)
  /\ reflects (on_twist_cmd (sample_twist 5 0.5))
       (fine_args fine_resumed_tick echo_node)
  /\ kw_curr_vel (fine_args fine_resumed_tick echo_node) = 3%float
  /\ kw_curr_ang_vel (fine_args fine_resumed_tick echo_node) = 0%float
  /\ kw_dbw_enabled (fine_args fine_resumed_tick echo_node) = true
  /\ publishes (run_effects (fine_iteration fine_resumed_tick) echo_node)
     = commands (5%float, 0%float, 0.5%float).
Proof.
  pose proof (update_reaches_the_next_loads fine_resumed_tick echo_node)
    as (_ & (_ & Hcv & _ & Hcav & _) & _ & Hseen & Hresume).
  assert (Hb : before_108 fine_resumed_tick
               = [store_dbw_enabled false]
                 ++ stores_of (on_twist_cmd (sample_twist 5 0.5))
                 ++ [store_dbw_enabled true])
    by reflexivity.
  assert (Hun : untouched (on_twist_cmd (sample_twist 5 0.5))
                  ([store_dbw_enabled true]
                     ++ before_109 fine_resumed_tick
                     ++ before_110 fine_resumed_tick
                     ++ before_111 fine_resumed_tick
                     ++ before_112 fine_resumed_tick
                     ++ before_113 fine_resumed_tick
                     ++ before_114 fine_resumed_tick)).
  { intros st Hin.
    apply elem_of_cons in Hin as [->|Hin]; [reflexivity|].
    apply elem_of_cons in Hin as [->|Hin]; [reflexivity|].
    by apply elem_of_nil in Hin. }
  split; [exact Hb|]. split; [exact Hun|].
  split; [exact (Hseen _ _ _ Hb Hun)|].
  split; [rewrite Hcv; reflexivity|].
  split; [rewrite Hcav; reflexivity|].
  apply (Hresume [ store_dbw_enabled false; store_target_vel 5;
                   store_target_ang_vel 0.5 ] []
           (5%float, 0%float, 0.5%float)).
  - reflexivity.
  - reflexivity.
  - reflexivity.
  - intros pm _. reflexivity.
Defined.

(** C9 as stated fails: after a first waypoints message a second one is
    handled like the first and changes the instance; the channel goes on
    delivering, to the wrong name. *)
Lemma later_waypoints_message_is_handled :
  attr_final_waypoints_cb (deliver (on_final_waypoints sample_lane) echo_node)
  = Some (waypoints sample_lane)
  /\ attr_final_waypoints_cb
       (deliver (on_final_waypoints second_lane)
          (deliver (on_final_waypoints sample_lane) echo_node))
     = Some (waypoints second_lane)
  /\ deliver (on_final_waypoints second_lane)
       (deliver (on_final_waypoints sample_lane) echo_node)
     <> deliver (on_final_waypoints sample_lane) echo_node
  /\ final_waypoints
       (deliver (on_final_waypoints second_lane)
          (deliver (on_final_waypoints sample_lane) echo_node))
     = None.
Proof.
  split; [reflexivity|]. split; [reflexivity|]. split; [|reflexivity].
  intros H. apply (f_equal attr_final_waypoints_cb) in H. discriminate H.
Qed.

Lemma waypoints_overwrite_the_handler_attribute_witness :
  let schedule :=
    [ {| before := [on_final_waypoints sample_lane];
         clock := 1%float;
         during := [] |};
      {| before := [];
         clock := 1.02%float;
         during := [on_final_waypoints second_lane] |} ] in
  reachable ∅ 0%float (run_state (loop schedule) echo_node)
  /\ final_waypoints (run_state (loop schedule) echo_node) = None
  /\ (@DBWNode_init echo_controller ∅ 0%float schedule).1.1 = Return tt
  /\ attr_final_waypoints_cb
       (@DBWNode_init echo_controller ∅ 0%float schedule).1.2
     = Some (waypoints second_lane).
Proof.
  intros schedule.
  pose proof (@waypoints_overwrite_the_handler_attribute echo_controller
                ∅ 0%float) as (_ & Hnone & _ & _ & Hrun).
  assert (Hreach : reachable ∅ 0%float (run_state (loop schedule) echo_node))
    by apply loop_steps.
  split; [exact Hreach|].
  split; [exact (Hnone _ Hreach)|].
  split; [reflexivity|].
  rewrite (Hrun schedule eq_refl). reflexivity.
Defined.

Lemma released_node_stays_silent_witness :
  let self := deliver (on_dbw_enabled {| Bool_data := false |}) echo_node in
  dbw_enabled self = false
  /\ Forall (fun t => keeps_released (before t) /\ keeps_released (during t))
       [released_tick; idle_tick 1.06%float]
  /\ run_result (loop [released_tick; idle_tick 1.06%float]) self = Return tt
  /\ publishes
       (run_effects (loop [released_tick; idle_tick 1.06%float]) self) = []
  /\ count (run_state (loop [released_tick; idle_tick 1.06%float]) self) = 0
  /\ length
       (control_calls
          (run_effects (loop [released_tick; idle_tick 1.06%float]) self))
     = 2%nat
  /\ map kw_dbw_enabled
       (control_calls
          (run_effects (loop [released_tick; idle_tick 1.06%float]) self))
     = [false; false].
Proof.
  assert (Hkeep :
            Forall (fun t => keeps_released (before t)
                             /\ keeps_released (during t))
              [released_tick; idle_tick 1.06%float])
    by (repeat constructor).
  pose proof (released_node_stays_silent
                [released_tick; idle_tick 1.06%float]
                (deliver (on_dbw_enabled {| Bool_data := false |}) echo_node)
                eq_refl Hkeep) as (Hnone & Hcount & _ & _ & _ & Hcalls).
  split; [reflexivity|]. split; [exact Hkeep|]. split; [reflexivity|].
  split; [exact Hnone|]. split; [exact Hcount|].
  split; [exact (proj1 (Hcalls eq_refl))|reflexivity].
Defined.

Lemma arguments_are_last_stores_witness :
  run_result (fine_loop [fine_resumed_tick]) echo_node = Return tt
  /\ (let a :=
        fine_args torn_twist_tick
          (run_state (fine_loop [fine_resumed_tick]) echo_node) in
      kw_curr_vel a = 3%float
      /\ kw_curr_ang_vel a = 0.2%float
      /\ kw_target_vel a = 5%float
      /\ kw_target_ang_vel a = 0.75%float
      /\ kw_dbw_enabled a = true).
Proof.
  split; [reflexivity|].
  pose proof (arguments_are_last_stores [fine_resumed_tick] torn_twist_tick
                echo_node eq_refl)
    as (_ & Htv & Hcv & Htav & Hcav & Hen & _).
  intros a.
  split; [etransitivity; [exact Hcv|reflexivity]|].
  split; [etransitivity; [exact Hcav|reflexivity]|].
  split; [etransitivity; [exact Htv|reflexivity]|].
  split; [etransitivity; [exact Htav|reflexivity]|].
  etransitivity; [exact Hen|reflexivity].
Defined.
